(** * DoubleClick price codec ([doubleclick/doubleclick_pricer.go])

    A shallow embedding of the pricer of [openrtb-pricers] together with the
    parts of the Go standard library it calls ([crypto/md5], [crypto/hmac],
    [encoding/base64], [encoding/hex], [encoding/binary], [float64]
    arithmetic), followed by the properties of [Encrypt] and [Decrypt]. *)

From Stdlib Require Import ZArith QArith Qabs List String Ascii Bool Lia Btauto.
From Stdlib Require Import Init.Byte.
From Stdlib Require Import Floats.PrimFloat Floats.SpecFloat Floats.FloatOps.
From coqutil Require Import Z.bitblast.
Import ListNotations.

Local Open Scope Z_scope.
Set Warnings "-inexact-float".

(** ** Bytes *)

Definition Z_of_byte (b : byte) : Z := Z.of_N (Byte.to_N b).

Definition byte_of_Z (z : Z) : byte :=
  match Byte.of_N (Z.to_N (z mod 256)) with
  | Some b => b
  | None => x00
  end.

(** Go's [a ^ b] on two bytes. *)
Definition byte_xor (a b : byte) : byte :=
  byte_of_Z (Z.lxor (Z_of_byte a) (Z_of_byte b)).

(** A [[]byte(s)] conversion: the bytes of a Go string. *)
Definition bytes_of_string (s : string) : list byte := list_byte_of_string s.

Definition zeros (n : nat) : list byte := repeat x00 n.

(** ** [crypto/md5] (RFC 1321) *)

Module md5.

Definition Size : nat := 16.
Definition BlockSize : nat := 64.

Definition add32 (x y : Z) : Z := (x + y) mod 2 ^ 32.

Definition not32 (x : Z) : Z := Z.lxor x 0xffffffff.

Definition rotl32 (x n : Z) : Z :=
  Z.lor (Z.shiftl x n mod 2 ^ 32) (Z.shiftr x (32 - n)).

Definition shifts : list Z :=
  [ 7; 12; 17; 22; 7; 12; 17; 22; 7; 12; 17; 22; 7; 12; 17; 22;
    5;  9; 14; 20; 5;  9; 14; 20; 5;  9; 14; 20; 5;  9; 14; 20;
    4; 11; 16; 23; 4; 11; 16; 23; 4; 11; 16; 23; 4; 11; 16; 23;
    6; 10; 15; 21; 6; 10; 15; 21; 6; 10; 15; 21; 6; 10; 15; 21 ].

Definition K : list Z :=
  [ 0xd76aa478; 0xe8c7b756; 0x242070db; 0xc1bdceee;
    0xf57c0faf; 0x4787c62a; 0xa8304613; 0xfd469501;
    0x698098d8; 0x8b44f7af; 0xffff5bb1; 0x895cd7be;
    0x6b901122; 0xfd987193; 0xa679438e; 0x49b40821;
    0xf61e2562; 0xc040b340; 0x265e5a51; 0xe9b6c7aa;
    0xd62f105d; 0x02441453; 0xd8a1e681; 0xe7d3fbc8;
    0x21e1cde6; 0xc33707d6; 0xf4d50d87; 0x455a14ed;
    0xa9e3e905; 0xfcefa3f8; 0x676f02d9; 0x8d2a4c8a;
    0xfffa3942; 0x8771f681; 0x6d9d6122; 0xfde5380c;
    0xa4beea44; 0x4bdecfa9; 0xf6bb4b60; 0xbebfbc70;
    0x289b7ec6; 0xeaa127fa; 0xd4ef3085; 0x04881d05;
    0xd9d4d039; 0xe6db99e5; 0x1fa27cf8; 0xc4ac5665;
    0xf4292244; 0x432aff97; 0xab9423a7; 0xfc93a039;
    0x655b59c3; 0x8f0ccc92; 0xffeff47d; 0x85845dd1;
    0x6fa87e4f; 0xfe2ce6e0; 0xa3014314; 0x4e0811a1;
    0xf7537e82; 0xbd3af235; 0x2ad7d2bb; 0xeb86d391 ].

(** The four chaining words a, b, c, d. *)
Record digest := Digest { dA : Z; dB : Z; dC : Z; dD : Z }.

Definition init : digest :=
  Digest 0x67452301 0xefcdab89 0x98badcfe 0x10325476.

(** Little-endian 32-bit words. *)
Definition le_uint32 (bs : list byte) : Z :=
  match bs with
  | [b0; b1; b2; b3] =>
      Z.lor (Z_of_byte b0)
        (Z.lor (Z.shiftl (Z_of_byte b1) 8)
           (Z.lor (Z.shiftl (Z_of_byte b2) 16) (Z.shiftl (Z_of_byte b3) 24)))
  | _ => 0
  end.

Definition le_put_uint32 (w : Z) : list byte :=
  [ byte_of_Z w; byte_of_Z (Z.shiftr w 8);
    byte_of_Z (Z.shiftr w 16); byte_of_Z (Z.shiftr w 24) ].

Definition le_put_uint64 (w : Z) : list byte :=
  le_put_uint32 w ++ le_put_uint32 (Z.shiftr w 32).

Fixpoint words (n : nat) (block : list byte) : list Z :=
  match n with
  | O => []
  | S n' => le_uint32 (firstn 4 block) :: words n' (skipn 4 block)
  end.

(** One of the 64 steps of the block function. *)
Definition step (m : list Z) (st : digest) (i : nat) : digest :=
  let '(Digest a b c d) := st in
  let iz := Z.of_nat i in
  let '(f, g) :=
    if (i <? 16)%nat then
      (Z.lor (Z.land b c) (Z.land (not32 b) d), iz)
    else if (i <? 32)%nat then
      (Z.lor (Z.land d b) (Z.land (not32 d) c), (5 * iz + 1) mod 16)
    else if (i <? 48)%nat then
      (Z.lxor b (Z.lxor c d), (3 * iz + 5) mod 16)
    else
      (Z.lxor c (Z.lor b (not32 d)), (7 * iz) mod 16) in
  let f' := add32 (add32 (add32 f a) (nth i K 0)) (nth (Z.to_nat g) m 0) in
  Digest d (add32 b (rotl32 f' (nth i shifts 0))) b c.

Definition block (st : digest) (blk : list byte) : digest :=
  let m := words 16 blk in
  let '(Digest a b c d) := fold_left (step m) (seq 0 64) st in
  Digest (add32 (dA st) a) (add32 (dB st) b) (add32 (dC st) c) (add32 (dD st) d).

Fixpoint blocks (n : nat) (st : digest) (p : list byte) : digest :=
  match n with
  | O => st
  | S n' => blocks n' (block st (firstn 64 p)) (skipn 64 p)
  end.

(** The message followed by 0x80, zeros up to 56 mod 64, and the bit length
    as a little-endian 64-bit word. *)
Definition pad (msg : list byte) : list byte :=
  let len := Z.of_nat (List.length msg) in
  msg ++ [x80] ++ zeros (Z.to_nat ((55 - len) mod 64))
      ++ le_put_uint64 ((8 * len) mod 2 ^ 64).

(** [md5.Sum]: the 16-byte checksum of the data. *)
Definition Sum (data : list byte) : list byte :=
  let p := pad data in
  let '(Digest a b c d) := blocks (List.length p / 64) init p in
  le_put_uint32 a ++ le_put_uint32 b ++ le_put_uint32 c ++ le_put_uint32 d.

End md5.

(** ** The interface [hash.Hash] *)

Module hash.

(** [Write] adds data to the running hash, [Sum] appends the current hash to
    a slice without changing the state, [Reset] goes back to the initial
    state. *)
Class Hash (H : Type) : Type := {
  Write : H -> list byte -> H;
  Sum : H -> list byte -> list byte;
  Reset : H -> H;
  Size : H -> nat;
  BlockSize : H -> nat
}.

End hash.

(** ** [crypto/hmac] over MD5 *)

Module hmac.

(** The state of the keyed hash: the key block fixed by [hmac.New] and the
    bytes written since the last [Reset]. *)
Record Hash := mkHash { keyBlock : list byte; written : list byte }.

(** [hmac.New(md5.New, key)]: keys longer than the block size are hashed
    first; the key is then padded with zeros to the block size. *)
Definition New (key : list byte) : Hash :=
  let k := if (md5.BlockSize <? List.length key)%nat then md5.Sum key else key in
  mkHash (k ++ zeros (md5.BlockSize - List.length k)) [].

Definition Reset (h : Hash) : Hash := mkHash (keyBlock h) [].

Definition Write (h : Hash) (p : list byte) : Hash :=
  mkHash (keyBlock h) (written h ++ p).

(** [h.Sum(in)] appends the current MAC to [in] and leaves the state as it
    is. *)
Definition Sum (h : Hash) (b : list byte) : list byte :=
  let ipad := map (byte_xor x36) (keyBlock h) in
  let opad := map (byte_xor x5c) (keyBlock h) in
  b ++ md5.Sum (opad ++ md5.Sum (ipad ++ written h)).

#[global] Instance Hash_hmac : hash.Hash Hash := {|
  hash.Write := Write;
  hash.Sum := Sum;
  hash.Reset := Reset;
  hash.Size := fun _ => md5.Size;
  hash.BlockSize := fun _ => md5.BlockSize
|}.

End hmac.

(** ** Go values: errors, panics, slices *)

(** The error values the pricer can return: those of [encoding/base64] and
    [encoding/hex], and the one made by [errors.New]. *)
Inductive error_value : Type :=
| CorruptInputError (offset : Z)
| InvalidByteError (b : ascii)
| ErrLength
| errorString (s : string).

(** A Go [error]: [None] is [nil]. *)
Definition error : Type := option error_value.

Module errors.
Definition New (text : string) : error := Some (errorString text).
End errors.

(** What a call does: it returns, or it panics and unwinds. *)
Inductive outcome (A : Type) : Type :=
| Returns (a : A)
| Panics (reason : string).
Arguments Returns {A} a.
Arguments Panics {A} reason.

(** A byte slice as far as the pricer can observe it: the backing array from
    the slice's first element up to its capacity, and the length.  A slice
    expression [s[lo:hi]] may reach up to the capacity, beyond the length. *)
Record slice := mkSlice { backing : list byte; len : nat }.

Definition cap (s : slice) : nat := List.length (backing s).

(** The elements [s[0] .. s[len-1]]. *)
Definition elems (s : slice) : list byte := firstn (len s) (backing s).

(** The elements of [s[lo:hi]], or a panic "slice bounds out of range". *)
Definition reslice (s : slice) (lo hi : nat) : outcome (list byte) :=
  if ((lo <=? hi) && (hi <=? cap s))%nat
  then Returns (firstn (hi - lo) (skipn lo (backing s)))
  else Panics "runtime error: slice bounds out of range".

(** [l[:hi]] on a slice whose capacity is its length. *)
Definition slice_to (l : list byte) (hi : nat) : outcome (list byte) :=
  reslice (mkSlice l (List.length l)) 0 hi.

(** ** [encoding/binary], big endian *)

Module binary.

Fixpoint be_uint (bs : list byte) (acc : Z) : Z :=
  match bs with
  | [] => acc
  | b :: t => be_uint t (Z.lor (Z.shiftl acc 8) (Z_of_byte b))
  end.

(** [binary.BigEndian.Uint64(b)] on an 8-byte array. *)
Definition Uint64 (b : list byte) : Z := be_uint b 0.

(** [binary.BigEndian.PutUint64(b, v)] into an 8-byte array. *)
Definition PutUint64 (v : Z) : list byte :=
  map (fun k => byte_of_Z (Z.shiftr v (8 * k))) [7; 6; 5; 4; 3; 2; 1; 0].

End binary.

(** ** [encoding/hex] *)

Module hex.

Definition hextable : string := "0123456789abcdef".

(** [reverseHexTable]: the value of a hexadecimal digit of either case. *)
Definition fromHexChar (c : ascii) : option Z :=
  let n := Z.of_nat (nat_of_ascii c) in
  if (48 <=? n) && (n <=? 57) then Some (n - 48)
  else if (97 <=? n) && (n <=? 102) then Some (n - 97 + 10)
  else if (65 <=? n) && (n <=? 70) then Some (n - 65 + 10)
  else None.

(** [hex.Decode]: pairs of digits; an invalid digit is reported before an
    odd length. *)
Fixpoint Decode (src : string) : list byte * error :=
  match src with
  | EmptyString => ([], None)
  | String p EmptyString =>
      match fromHexChar p with
      | None => ([], Some (InvalidByteError p))
      | Some _ => ([], Some ErrLength)
      end
  | String p (String q rest) =>
      match fromHexChar p, fromHexChar q with
      | None, _ => ([], Some (InvalidByteError p))
      | Some _, None => ([], Some (InvalidByteError q))
      | Some a, Some b =>
          let '(out, err) := Decode rest in
          (byte_of_Z (Z.lor (Z.shiftl a 4) b) :: out, err)
      end
  end.

Definition DecodeString (s : string) : list byte * error := Decode s.

Definition hexchar (n : Z) : ascii :=
  match get (Z.to_nat n) hextable with
  | Some c => c
  | None => "0"%char
  end.

Fixpoint EncodeToString (src : list byte) : string :=
  match src with
  | [] => EmptyString
  | b :: t =>
      String (hexchar (Z.shiftr (Z_of_byte b) 4))
        (String (hexchar (Z.land (Z_of_byte b) 0x0f)) (EncodeToString t))
  end.

End hex.

(** ** [encoding/base64], the padded [URLEncoding] *)

Module base64.

Definition encodeURL : string :=
  "ABCDEFGHIJKLMNOPQRSTUVWXYZabcdefghijklmnopqrstuvwxyz0123456789-_".

Definition padChar : ascii := "="%char.

(** [enc.encode[i]] *)
Definition encode (i : Z) : ascii :=
  match get (Z.to_nat i) encodeURL with
  | Some c => c
  | None => padChar
  end.

(** [enc.decodeMap[c]], [None] standing for the 0xff entries. *)
Definition decodeMap (c : ascii) : option Z :=
  let n := Z.of_nat (nat_of_ascii c) in
  if (65 <=? n) && (n <=? 90) then Some (n - 65)
  else if (97 <=? n) && (n <=? 122) then Some (n - 97 + 26)
  else if (48 <=? n) && (n <=? 57) then Some (n - 48 + 52)
  else if n =? 45 then Some 62
  else if n =? 95 then Some 63
  else None.

(** [enc.EncodeToString(src)]: groups of three bytes give four characters;
    a last group of one or two bytes is padded with [=]. *)
Fixpoint EncodeToString (src : list byte) : string :=
  match src with
  | [] => EmptyString
  | [b0] =>
      let val := Z.shiftl (Z_of_byte b0) 16 in
      String (encode (Z.land (Z.shiftr val 18) 0x3F))
        (String (encode (Z.land (Z.shiftr val 12) 0x3F))
           (String padChar (String padChar EmptyString)))
  | [b0; b1] =>
      let val := Z.lor (Z.shiftl (Z_of_byte b0) 16) (Z.shiftl (Z_of_byte b1) 8) in
      String (encode (Z.land (Z.shiftr val 18) 0x3F))
        (String (encode (Z.land (Z.shiftr val 12) 0x3F))
           (String (encode (Z.land (Z.shiftr val 6) 0x3F))
              (String padChar EmptyString)))
  | b0 :: b1 :: b2 :: rest =>
      let val := Z.lor (Z.shiftl (Z_of_byte b0) 16)
                   (Z.lor (Z.shiftl (Z_of_byte b1) 8) (Z_of_byte b2)) in
      String (encode (Z.land (Z.shiftr val 18) 0x3F))
        (String (encode (Z.land (Z.shiftr val 12) 0x3F))
           (String (encode (Z.land (Z.shiftr val 6) 0x3F))
              (String (encode (Z.land val 0x3F)) (EncodeToString rest))))
  end.

(** [enc.DecodedLen(n)] with padding. *)
Definition DecodedLen (n : nat) : nat := (n / 4 * 3)%nat.

Definition is_newline (c : ascii) : bool :=
  (nat_of_ascii c =? 10)%nat || (nat_of_ascii c =? 13)%nat.

(** The loop "skip over newlines": the rest of the input and its offset. *)
Fixpoint skip_newlines (src : string) (si : Z) : string * Z :=
  match src with
  | String c rest => if is_newline c then skip_newlines rest (si + 1) else (src, si)
  | EmptyString => (src, si)
  end.

(** The bytes of a quantum of [dlen] sextets ([dlen - 1] bytes). *)
Definition quantum_bytes (dbuf : list Z) : list byte :=
  let val := Z.lor (Z.shiftl (nth 0 dbuf 0) 18)
               (Z.lor (Z.shiftl (nth 1 dbuf 0) 12)
                  (Z.lor (Z.shiftl (nth 2 dbuf 0) 6) (nth 3 dbuf 0))) in
  firstn (List.length dbuf - 1)
    [byte_of_Z (Z.shiftr val 16); byte_of_Z (Z.shiftr val 8); byte_of_Z val].

(** [enc.Decode]: the quanta of [decodeQuantum] one after the other.  [si] is
    the offset of the next character, [dbuf] the sextets of the current
    quantum, [out] the bytes decoded so far.  Line breaks are skipped; padding
    ends the input; the bytes decoded before an error are returned with it. *)
Fixpoint Decode (src : string) (si : Z) (dbuf : list Z) (out : list byte)
  : list byte * error :=
  match src with
  | EmptyString =>
      match dbuf with
      | [] => (out, None)
      | _ => (out, Some (CorruptInputError (si - Z.of_nat (List.length dbuf))))
      end
  | String c rest =>
      match decodeMap c with
      | Some v =>
          let dbuf' := dbuf ++ [v] in
          if (List.length dbuf' =? 4)%nat
          then Decode rest (si + 1) [] (out ++ quantum_bytes dbuf')
          else Decode rest (si + 1) dbuf' out
      | None =>
          if is_newline c then Decode rest (si + 1) dbuf out
          else if negb (Ascii.eqb c padChar) then (out, Some (CorruptInputError si))
          else
            (* padding *)
            let after_pad (rest' : string) (si' : Z) :=
              let '(tail, sj) := skip_newlines rest' si' in
              match tail with
              | EmptyString => (out ++ quantum_bytes dbuf, None)
              | _ => (out ++ quantum_bytes dbuf, Some (CorruptInputError sj))
              end in
            match List.length dbuf with
            | 2%nat =>
                let '(tail, sj) := skip_newlines rest (si + 1) in
                match tail with
                | EmptyString => (out, Some (CorruptInputError sj))
                | String c2 rest2 =>
                    if Ascii.eqb c2 padChar then after_pad rest2 (sj + 1)
                    else (out, Some (CorruptInputError (sj - 1)))
                end
            | 3%nat => after_pad rest (si + 1)
            | _ => (out, Some (CorruptInputError si))
            end
      end
  end.

(** [enc.DecodeString(s)]: a buffer of [DecodedLen(len(s))] zero bytes is
    filled from the front and cut to the number of bytes decoded. *)
Definition DecodeString (s : string) : slice * error :=
  let '(out, err) := Decode s 0 [] [] in
  let n := List.length out in
  (mkSlice (out ++ zeros (DecodedLen (String.length s) - n)) n, err).

End base64.

(** ** [float64] *)

(** IEEE 754 binary64, as the kernel's primitive floats. *)
Definition float64 : Set := PrimFloat.float.

(** The conversion [float64(u)] of a [uint64]: the nearest float, ties to
    even. *)
Definition float64_of_uint64 (u : Z) : float64 :=
  SF2Prim (binary_normalize prec emax u 0 false).

(** The integer nearest to a finite float, halves away from zero
    ([math.Round]); nothing for infinities and NaN. *)
Definition round_SF (x : spec_float) : option Z :=
  match x with
  | S754_zero _ => Some 0
  | S754_finite s m e =>
      let mag := if 0 <=? e then Zpos m * 2 ^ e
                 else (Zpos m + 2 ^ (- e - 1)) / 2 ^ (- e) in
      Some (if s then - mag else mag)
  | S754_infinity _ | S754_nan => None
  end.

(** ** Package [helpers] *)

Module helpers.

(** Modelled from the spec: the type [helpers.KeyDecodingMode], an
    enumeration {hex, base64web} that says how a key string is decoded. *)
Inductive KeyDecodingMode : Type := Hexadecimal | Base64Web.

(** Modelled from the spec: [helpers.AddBase64Padding], which repairs the
    padding of a token whose trailing [=] characters were stripped: the input
    is completed with [=] to a multiple of four characters. *)
Definition AddBase64Padding (base64Input : string) : string :=
  match (String.length base64Input mod 4)%nat with
  | O => base64Input
  | i => base64Input ++ string_of_list_ascii (repeat base64.padChar (4 - i))
  end.

(** Modelled from the spec: [helpers.CreateHmac], which decodes a key string
    into raw key bytes and binds a keyed-hash context (HMAC over the 16-byte
    MD5 digest) to them.  The key is taken as web-safe base64 when [isBase64] is
    set or the mode is base64web, and as hexadecimal otherwise; a malformed
    key string (odd-length or non-hexadecimal text, a character outside the
    base64 alphabet) gives the decoder's error and no context. *)
Definition CreateHmac (key : string) (isBase64 : bool) (mode : KeyDecodingMode)
  : option hmac.Hash * error :=
  let '(k, err) :=
    if isBase64 || match mode with Base64Web => true | Hexadecimal => false end
    then let '(d, e) := base64.DecodeString (AddBase64Padding key) in (elems d, e)
    else hex.DecodeString key in
  match err with
  | Some _ => (None, err)
  | None => (Some (hmac.New k), None)
  end.

(** Modelled from the spec: [helpers.HmacSum], one self-contained keyed-hash
    computation: the context is reset, the buffer written, and the digest
    read; the context is left holding the buffer. *)
Definition HmacSum {H : Type} `{hash.Hash H} (h : H) (buf : list byte)
  : list byte * H :=
  let h := hash.Reset h in
  let h := hash.Write h buf in
  (hash.Sum h [], h).

(** Modelled from the spec: the scaled price in micros,
    [round(price * scaleFactor)], when the price is not negative and the
    rounded product is representable as an unsigned 64-bit integer. *)
Definition scaled_micros (price scaleFactor : float64) : option Z :=
  if PrimFloat.ltb price 0 then None
  else match round_SF (Prim2SF (PrimFloat.mul price scaleFactor)) with
       | Some m => if (0 <=? m) && (m <? 2 ^ 64) then Some m else None
       | None => None
       end.

(** Modelled from the spec: [helpers.ApplyScaleFactor], the micros as an
    8-byte big-endian array.  The call site takes the array alone, so the
    failure the spec defines for negative or overflowing prices has no way to
    reach [Encrypt]; the model returns the array's zero value there. *)
Definition ApplyScaleFactor (price scaleFactor : float64) (isDebugMode : bool)
  : list byte :=
  match scaled_micros price scaleFactor with
  | Some m => binary.PutUint64 m
  | None => zeros 8
  end.

End helpers.

(** ** [glog]: the diagnostic sink *)

Module glog.

Inductive Arg : Type :=
| Str (s : string)
| Bytes (b : list byte)
| Mode (m : helpers.KeyDecodingMode).

(** One call of [glog.Info] with its arguments. *)
Definition Entry : Type := list Arg.

Definition Sink : Type := list Entry.

Definition Info (args : list Arg) (sink : Sink) : Sink := sink ++ [args].

End glog.

(** ** The pricer *)

(** [DoubleClickPricer], as [NewDoubleClickPricer] builds it: the two
    [hash.Hash] fields hold the HMAC contexts of [helpers.CreateHmac] (the
    zero value of the struct, whose contexts are nil, is left out).  The
    contexts are reachable through this pricer alone, so they are kept in the
    record and a method returns the pricer it leaves. *)
Record DoubleClickPricer := mkPricer {
  encryptionKeyRaw : string;
  integrityKeyRaw : string;
  encryptionKey : hmac.Hash;
  integrityKey : hmac.Hash;
  keyDecodingMode : helpers.KeyDecodingMode;
  scaleFactor : float64;
  isDebugMode : bool
}.

(** [NewDoubleClickPricer]: the pricer (or [nil]), the error, and the lines
    sent to the diagnostic sink. *)
Definition NewDoubleClickPricer
  (encryptionKey integrityKey : string) (isBase64Keys : bool)
  (keyDecodingMode : helpers.KeyDecodingMode) (scaleFactor : float64)
  (isDebugMode : bool) (sink : glog.Sink)
  : (option DoubleClickPricer * error) * glog.Sink :=
  match helpers.CreateHmac encryptionKey isBase64Keys keyDecodingMode with
  | (_, Some e) => ((None, Some e), sink)
  | (None, None) => ((None, None), sink) (* no context and no error: never returned *)
  | (Some encryptingFun, None) =>
  match helpers.CreateHmac integrityKey isBase64Keys keyDecodingMode with
  | (_, Some e) => ((None, Some e), sink)
  | (None, None) => ((None, None), sink)
  | (Some integrityFun, None) =>
      let built :=
        mkPricer encryptionKey integrityKey encryptingFun integrityFun
          keyDecodingMode scaleFactor isDebugMode in
      if isDebugMode then
        let sink := glog.Info [glog.Str "Keys decoding mode : ";
                               glog.Mode keyDecodingMode] sink in
        let sink := glog.Info [glog.Str "Encryption key : "; glog.Str encryptionKey] sink in
        match hex.DecodeString encryptionKey with
        | (_, Some e) => ((None, Some e), sink)
        | (encryptionKeyHexa, None) =>
        let sink := glog.Info [glog.Str "Encryption key (bytes) : ";
                               glog.Bytes encryptionKeyHexa] sink in
        let sink := glog.Info [glog.Str "Integrity key : "; glog.Str integrityKey] sink in
        match hex.DecodeString integrityKey with
        | (_, Some e) => ((None, Some e), sink)
        | (integrityKeyHexa, None) =>
        let sink := glog.Info [glog.Str "Integrity key (bytes) : ";
                               glog.Bytes integrityKeyHexa] sink in
        ((Some built, None), sink)
        end
        end
      else ((Some built, None), sink)
  end
  end.

(** The state a method call works on: the receiver (with its two hash
    contexts, which only this pricer can reach) and the diagnostic sink. *)
Record World := mkWorld { self : DoubleClickPricer; sink : glog.Sink }.

(** A method body: from a state, a result and a new state, or a panic. *)
Definition Go (A : Type) : Type := World -> outcome (A * World).

Definition ret {A} (a : A) : Go A := fun w => Returns (a, w).

Definition bind {A B} (m : Go A) (k : A -> Go B) : Go B :=
  fun w => match m w with
           | Returns (a, w') => k a w'
           | Panics r => Panics r
           end.

Notation "x <- m ;; k" := (bind m (fun x => k))
  (at level 61, m at next level, right associativity).
Notation "m ;;; k" := (bind m (fun _ => k))
  (at level 61, right associativity).

(** A slicing or indexing step that may panic. *)
Definition try {A} (o : outcome A) : Go A :=
  fun w => match o with
           | Returns a => Returns (a, w)
           | Panics r => Panics r
           end.

Definition receiver : Go DoubleClickPricer := fun w => Returns (self w, w).

Definition glog_Info (args : list glog.Arg) : Go unit :=
  fun w => Returns (tt, mkWorld (self w) (glog.Info args (sink w))).

Definition when (b : bool) (m : Go unit) : Go unit := if b then m else ret tt.

(** [helpers.HmacSum(dc.encryptionKey, buf)] *)
Definition HmacSum_encryptionKey (buf : list byte) : Go (list byte) :=
  fun w =>
    let dc := self w in
    let '(sum, h) := helpers.HmacSum (encryptionKey dc) buf in
    Returns (sum, mkWorld (mkPricer (encryptionKeyRaw dc) (integrityKeyRaw dc)
                             h (integrityKey dc) (keyDecodingMode dc)
                             (scaleFactor dc) (isDebugMode dc)) (sink w)).

(** [helpers.HmacSum(dc.integrityKey, buf)] *)
Definition HmacSum_integrityKey (buf : list byte) : Go (list byte) :=
  fun w =>
    let dc := self w in
    let '(sum, h) := helpers.HmacSum (integrityKey dc) buf in
    Returns (sum, mkWorld (mkPricer (encryptionKeyRaw dc) (integrityKeyRaw dc)
                             (encryptionKey dc) h (keyDecodingMode dc)
                             (scaleFactor dc) (isDebugMode dc)) (sink w)).

(** The loop [for i := range b { out[i] = a[i] ^ b[i] }] on arrays of one
    length. *)
Fixpoint xor_bytes (a b : list byte) : list byte :=
  match a, b with
  | x :: a', y :: b' => byte_xor x y :: xor_bytes a' b'
  | _, _ => []
  end.

(** The loop [for i := range a { if a[i] != b[i] { return ... } }]: is there
    an index at which the two differ? *)
Fixpoint bytes_differ (a b : list byte) : bool :=
  match a, b with
  | x :: a', y :: b' => negb (Byte.eqb x y) || bytes_differ a' b'
  | _, _ => false
  end.

(** [Encrypt] encrypts a clear price and a given seed. *)
Definition Encrypt (seed : string) (price : float64) (isDebugMode : bool)
  : Go (string * error) :=
  dc <- receiver ;;
  let err : error := None in
  let data := helpers.ApplyScaleFactor price (scaleFactor dc) isDebugMode in
  (* Create Initialization Vector from seed *)
  let sum := md5.Sum (bytes_of_string seed) in
  let iv := sum in
  when isDebugMode
    (glog_Info [glog.Str "Seed : "; glog.Str seed] ;;;
     glog_Info [glog.Str "Initialization vector : "; glog.Bytes iv]) ;;;
  (* pad = hmac(e_key, iv), first 8 bytes *)
  h <- HmacSum_encryptionKey iv ;;
  pad <- try (slice_to h 8) ;;
  when isDebugMode
    (glog_Info [glog.Str "// pad = hmac(e_key, iv), first 8 bytes"] ;;;
     glog_Info [glog.Str "Pad : "; glog.Bytes pad]) ;;;
  (* enc_data = pad <xor> data *)
  let encoded := xor_bytes pad data in
  when isDebugMode
    (glog_Info [glog.Str "// enc_data = pad <xor> data"] ;;;
     glog_Info [glog.Str "Encoded price bytes : "; glog.Bytes encoded]) ;;;
  (* signature = hmac(i_key, data || iv), first 4 bytes *)
  h <- HmacSum_integrityKey (data ++ iv) ;;
  sig <- try (slice_to h 4) ;;
  let signature := sig in
  when isDebugMode
    (glog_Info [glog.Str "// signature = hmac(i_key, data || iv), first 4 bytes"] ;;;
     glog_Info [glog.Str "Signature : "; glog.Bytes sig]) ;;;
  (* final_message = WebSafeBase64Encode( iv || enc_price || signature ) *)
  ret (base64.EncodeToString (iv ++ encoded ++ signature), err).

(** [Decrypt] decrypts an encrypted price. *)
Definition Decrypt (encryptedPrice : string) (isDebugMode : bool)
  : Go (float64 * error) :=
  dc <- receiver ;;
  let errPrice : float64 := PrimFloat.zero in
  (* Decode base64 *)
  let encryptedPrice := helpers.AddBase64Padding encryptedPrice in
  let '(decoded, err) := base64.DecodeString encryptedPrice in
  match err with
  | Some _ => ret (errPrice, err)
  | None =>
  when isDebugMode
    (glog_Info [glog.Str "Encrypted price : "; glog.Str encryptedPrice] ;;;
     glog_Info [glog.Str "Base64 decoded price : "; glog.Bytes (elems decoded)]) ;;;
  (* Get elements *)
  iv <- try (reslice decoded 0 16) ;;
  p <- try (reslice decoded 16 24) ;;
  signature <- try (reslice decoded 24 28) ;;
  (* pad = hmac(e_key, iv) *)
  h <- HmacSum_encryptionKey iv ;;
  pad <- try (slice_to h 8) ;;
  when isDebugMode
    (glog_Info [glog.Str "IV : "; glog.Str (hex.EncodeToString iv)] ;;;
     glog_Info [glog.Str "Encoded price : "; glog.Str (hex.EncodeToString p)] ;;;
     glog_Info [glog.Str "Signature : "; glog.Str (hex.EncodeToString signature)] ;;;
     glog_Info [glog.Str "Pad : "; glog.Str (hex.EncodeToString pad)]) ;;;
  (* priceMicro = p <xor> pad *)
  let priceMicro := xor_bytes pad p in
  (* conf_sig = hmac(i_key, data || iv) *)
  h <- HmacSum_integrityKey (priceMicro ++ iv) ;;
  sig <- try (slice_to h 4) ;;
  (* success = (conf_sig == sig) *)
  if bytes_differ sig signature
  then ret (errPrice, errors.New "Failed to decrypt")
  else
    let price := PrimFloat.div (float64_of_uint64 (binary.Uint64 priceMicro))
                   (scaleFactor dc) in
    ret (price, err)
  end.

(** ** Vocabulary of the statements *)

(** The result of a call, without the state it leaves. *)
Definition result {A} (o : outcome (A * World)) : outcome A :=
  match o with
  | Returns (a, _) => Returns a
  | Panics r => Panics r
  end.

(** The MAC that [helpers.HmacSum] computes with a context: HMAC under the
    context's key of the message alone. *)
Definition mac (h : hmac.Hash) (msg : list byte) : list byte :=
  hmac.Sum (hmac.mkHash (hmac.keyBlock h) msg) [].

(** Two pricers with the same keys and the same scale factor. *)
Definition same_codec (a b : DoubleClickPricer) : Prop :=
  hmac.keyBlock (encryptionKey a) = hmac.keyBlock (encryptionKey b) /\
  hmac.keyBlock (integrityKey a) = hmac.keyBlock (integrityKey b) /\
  scaleFactor a = scaleFactor b.

(** The envelope [iv || enc_price || signature] of a seed and a price. *)
Definition envelope (dc : DoubleClickPricer) (seed : string) (price : float64)
  (isDebugMode : bool) : list byte :=
  let data := helpers.ApplyScaleFactor price (scaleFactor dc) isDebugMode in
  let iv := md5.Sum (bytes_of_string seed) in
  iv ++ xor_bytes (firstn 8 (mac (encryptionKey dc) iv)) data
     ++ firstn 4 (mac (integrityKey dc) (data ++ iv)).

(** What [Decrypt] makes of the first 28 bytes of a decoded token. *)
Definition open_envelope (dc : DoubleClickPricer) (env : list byte)
  : float64 * error :=
  let iv := firstn 16 env in
  let p := firstn 8 (skipn 16 env) in
  let signature := firstn 4 (skipn 24 env) in
  let priceMicro := xor_bytes (firstn 8 (mac (encryptionKey dc) iv)) p in
  if bytes_differ (firstn 4 (mac (integrityKey dc) (priceMicro ++ iv))) signature
  then (PrimFloat.zero, errors.New "Failed to decrypt")
  else (PrimFloat.div (float64_of_uint64 (binary.Uint64 priceMicro)) (scaleFactor dc),
        None).

(** Bit [k] of byte [i] flipped. *)
Fixpoint flip_bit (env : list byte) (i : nat) (k : Z) : list byte :=
  match env, i with
  | [], _ => []
  | b :: t, O => byte_xor b (byte_of_Z (2 ^ k)) :: t
  | b :: t, S i' => b :: flip_bit t i' k
  end.

(** A token with bit [k] of byte [i] of its envelope flipped. *)
Definition tamper (token : string) (i : nat) (k : Z) : string :=
  base64.EncodeToString (flip_bit (elems (fst (base64.DecodeString token))) i k).

(** The rational number a float stands for (0 for infinities and NaN). *)
Definition Q_of_SF (x : spec_float) : Q :=
  match x with
  | S754_finite s m e =>
      let q := if (0 <=? e)%Z then inject_Z (Zpos m * 2 ^ e)
               else Qmake (Zpos m) (Z.to_pos (2 ^ (- e))) in
      if s then Qopp q else q
  | _ => 0%Q
  end.

Definition Q_of_float (f : float64) : Q := Q_of_SF (Prim2SF f).

(** ** Example pricers *)

Definition example_encryptionKey : string := "000102030405060708090a0b0c0d0e0f".
Definition example_integrityKey : string := "101112131415161718191a1b1c1d1e1f".

(** The pricer that [NewDoubleClickPricer] builds from the two hexadecimal
    keys above with the scale factor of the DoubleClick specification. *)
Definition example_pricer : DoubleClickPricer :=
  mkPricer example_encryptionKey example_integrityKey
    (hmac.New (fst (hex.DecodeString example_encryptionKey)))
    (hmac.New (fst (hex.DecodeString example_integrityKey)))
    helpers.Hexadecimal 1000000%float false.

Definition example_world : World := mkWorld example_pricer [].

(** The same pricer built in debug mode, with the lines it sent to the
    sink. *)
Definition example_debug_world : World :=
  match NewDoubleClickPricer example_encryptionKey example_integrityKey false
          helpers.Hexadecimal 1000000%float true [] with
  | ((Some dc, _), lines) => mkWorld dc lines
  | _ => example_world
  end.

(** A token of the example pricer (seed "abc123", price 2.5), the same token
    with three more bytes in its envelope, and the same token with the lowest
    bit of its last byte flipped. *)
Definition example_token : string := "6ZoYxCjLONXyYIU2eJIuAxe4RClDrNV39T34kg==".
Definition example_token_long : string := "6ZoYxCjLONXyYIU2eJIuAxe4RClDrNV39T34kgECAw==".
Definition example_token_flipped : string := "6ZoYxCjLONXyYIU2eJIuAxe4RClDrNV39T34kw==".

(** Two web-safe base64 keys of 32 bytes. *)
Definition base64_encryptionKey : string :=
  "sIxwz7yw62yrfoLGt12lIHKuYrK_S5kLuApI2BQe7Ac=".
Definition base64_integrityKey : string :=
  "v3fsVcMBMMHYzRhi7SpM0sdqwzvAxM6KPTu9OtVod5I=".

(** ** Vocabulary of the further properties *)

(** Two pricers that differ at most in what their hash contexts hold. *)
Definition same_configuration (a b : DoubleClickPricer) : Prop :=
  encryptionKeyRaw a = encryptionKeyRaw b /\
  integrityKeyRaw a = integrityKeyRaw b /\
  hmac.keyBlock (encryptionKey a) = hmac.keyBlock (encryptionKey b) /\
  hmac.keyBlock (integrityKey a) = hmac.keyBlock (integrityKey b) /\
  keyDecodingMode a = keyDecodingMode b /\
  scaleFactor a = scaleFactor b /\
  isDebugMode a = isDebugMode b.

(** The lines [Encrypt] sends to the sink when its debug flag is set. *)
Definition Encrypt_debug_lines (dc : DoubleClickPricer) (seed : string)
  (price : float64) : list glog.Entry :=
  let data := helpers.ApplyScaleFactor price (scaleFactor dc) true in
  let iv := md5.Sum (bytes_of_string seed) in
  let pad := firstn 8 (mac (encryptionKey dc) iv) in
  [ [glog.Str "Seed : "; glog.Str seed];
    [glog.Str "Initialization vector : "; glog.Bytes iv];
    [glog.Str "// pad = hmac(e_key, iv), first 8 bytes"];
    [glog.Str "Pad : "; glog.Bytes pad];
    [glog.Str "// enc_data = pad <xor> data"];
    [glog.Str "Encoded price bytes : "; glog.Bytes (xor_bytes pad data)];
    [glog.Str "// signature = hmac(i_key, data || iv), first 4 bytes"];
    [glog.Str "Signature : "; glog.Bytes (firstn 4 (mac (integrityKey dc) (data ++ iv)))] ].

(** The state [Encrypt] leaves: the encryption context holds the IV, the
    integrity context the clear bytes and the IV, the sink the debug lines. *)
Definition after_Encrypt (w : World) (seed : string) (price : float64)
  (isDebugMode' : bool) : World :=
  let dc := self w in
  let data := helpers.ApplyScaleFactor price (scaleFactor dc) isDebugMode' in
  let iv := md5.Sum (bytes_of_string seed) in
  mkWorld
    (mkPricer (encryptionKeyRaw dc) (integrityKeyRaw dc)
       (hmac.mkHash (hmac.keyBlock (encryptionKey dc)) iv)
       (hmac.mkHash (hmac.keyBlock (integrityKey dc)) (data ++ iv))
       (keyDecodingMode dc) (scaleFactor dc) (isDebugMode dc))
    (sink w ++ if isDebugMode' then Encrypt_debug_lines dc seed price else []).

(** The lines [Decrypt] sends to the sink when its debug flag is set and the
    token, padded, decodes to the slice [d]. *)
Definition Decrypt_debug_lines (dc : DoubleClickPricer) (padded : string)
  (d : slice) : list glog.Entry :=
  let iv := firstn 16 (backing d) in
  [ [glog.Str "Encrypted price : "; glog.Str padded];
    [glog.Str "Base64 decoded price : "; glog.Bytes (elems d)];
    [glog.Str "IV : "; glog.Str (hex.EncodeToString iv)];
    [glog.Str "Encoded price : ";
     glog.Str (hex.EncodeToString (firstn 8 (skipn 16 (backing d))))];
    [glog.Str "Signature : ";
     glog.Str (hex.EncodeToString (firstn 4 (skipn 24 (backing d))))];
    [glog.Str "Pad : ";
     glog.Str (hex.EncodeToString (firstn 8 (mac (encryptionKey dc) iv)))] ].

(** The state [Decrypt] leaves once the three fields are read. *)
Definition after_Decrypt (w : World) (padded : string) (d : slice)
  (isDebugMode' : bool) : World :=
  let dc := self w in
  let iv := firstn 16 (backing d) in
  let p := firstn 8 (skipn 16 (backing d)) in
  let priceMicro := xor_bytes (firstn 8 (mac (encryptionKey dc) iv)) p in
  mkWorld
    (mkPricer (encryptionKeyRaw dc) (integrityKeyRaw dc)
       (hmac.mkHash (hmac.keyBlock (encryptionKey dc)) iv)
       (hmac.mkHash (hmac.keyBlock (integrityKey dc)) (priceMicro ++ iv))
       (keyDecodingMode dc) (scaleFactor dc) (isDebugMode dc))
    (sink w ++ if isDebugMode' then Decrypt_debug_lines dc padded d else []).

(** The characters of a Go string. *)
Definition chars (s : string) : list ascii := list_ascii_of_string s.

(** A character of the URL-safe base64 alphabet, or the padding character. *)
Definition url_safe (c : ascii) : bool :=
  existsb (Ascii.eqb c) (chars base64.encodeURL) || Ascii.eqb c base64.padChar.

(** A token with its 38th character, the last one before the padding,
    replaced. *)
Definition replace_last_char (token : string) (c : ascii) : string :=
  substring 0 37 token ++ String c "==".

(** The 24 bits of a group of three bytes. *)
Definition group3 (a b c : byte) : Z :=
  Z.lor (Z.shiftl (Z_of_byte a) 16) (Z.lor (Z.shiftl (Z_of_byte b) 8) (Z_of_byte c)).

(** * Properties *)

(** ** Bytes and bit operations *)

Lemma Z_of_byte_range (b : byte) : 0 <= Z_of_byte b < 256.
Proof.
  unfold Z_of_byte. pose proof (Byte.to_N_bounded b). lia.
Qed.

Lemma byte_of_Z_of_byte (b : byte) : byte_of_Z (Z_of_byte b) = b.
Proof.
  unfold byte_of_Z. pose proof (Z_of_byte_range b).
  rewrite Z.mod_small by lia. unfold Z_of_byte. rewrite N2Z.id.
  now rewrite Byte.of_to_N.
Qed.

Lemma Z_of_byte_of_Z (z : Z) : Z_of_byte (byte_of_Z z) = z mod 256.
Proof.
  unfold byte_of_Z, Z_of_byte.
  pose proof (Z.mod_pos_bound z 256 ltac:(lia)).
  destruct (Byte.of_N (Z.to_N (z mod 256))) eqn:E.
  - apply Byte.to_of_N in E. rewrite E. lia.
  - apply Byte.of_N_None_iff in E. lia.
Qed.

Lemma Z_of_byte_inj (a b : byte) : Z_of_byte a = Z_of_byte b -> a = b.
Proof.
  intros H. rewrite <- (byte_of_Z_of_byte a), <- (byte_of_Z_of_byte b). now rewrite H.
Qed.

Lemma Z_of_byte_mod (b : byte) : Z_of_byte b = Z_of_byte b mod 2 ^ 8.
Proof. pose proof (Z_of_byte_range b). rewrite Z.mod_small; lia. Qed.

Lemma Z_of_byte_xor (a b : byte) :
  Z_of_byte (byte_xor a b) = Z.lxor (Z_of_byte a) (Z_of_byte b).
Proof.
  unfold byte_xor. rewrite Z_of_byte_of_Z.
  rewrite (Z_of_byte_mod a), (Z_of_byte_mod b).
  change 256 with (2 ^ 8). Z.bitblast.
Qed.

(** ** base64: decoding an encoded string *)
Lemma decodeMap_encode (i : Z) :
  0 <= i < 64 -> base64.decodeMap (base64.encode i) = Some i.
Proof.
  intros H.
  assert (E : forallb (fun n => match base64.decodeMap (base64.encode (Z.of_nat n)) with
                                | Some v => v =? Z.of_nat n
                                | None => false
                                end) (seq 0 64) = true) by (vm_compute; reflexivity).
  rewrite forallb_forall in E.
  specialize (E (Z.to_nat i)). rewrite in_seq in E.
  rewrite Z2Nat.id in E by lia.
  destruct (base64.decodeMap (base64.encode i)); [|discriminate E; lia].
  f_equal. apply Z.eqb_eq. apply E. lia.
Qed.

Lemma sextet_range (x : Z) : 0 <= Z.land x 0x3F < 64.
Proof.
  change 0x3F with (Z.ones 6). rewrite Z.land_ones by lia.
  apply Z.mod_pos_bound. lia.
Qed.

Lemma sextets_recombine (v : Z) :
  Z.lor (Z.shiftl (Z.land (Z.shiftr v 18) 0x3F) 18)
    (Z.lor (Z.shiftl (Z.land (Z.shiftr v 12) 0x3F) 12)
       (Z.lor (Z.shiftl (Z.land (Z.shiftr v 6) 0x3F) 6) (Z.land v 0x3F)))
  = v mod 2 ^ 24.
Proof.
  change 0x3F with (Z.ones 6). Z.bitblast.
Qed.

Lemma group3_bytes (A B C : Z) :
  0 <= A < 256 -> 0 <= B < 256 -> 0 <= C < 256 ->
  let v := Z.lor (Z.shiftl A 16) (Z.lor (Z.shiftl B 8) C) in
  v mod 2 ^ 24 = v /\
  Z.shiftr v 16 mod 256 = A /\ Z.shiftr v 8 mod 256 = B /\ v mod 256 = C.
Proof.
  intros HA HB HC v. subst v.
  rewrite <- (Z.mod_small A (2 ^ 8)), <- (Z.mod_small B (2 ^ 8)),
    <- (Z.mod_small C (2 ^ 8)) by lia.
  change 256 with (2 ^ 8).
  repeat split; Z.bitblast;
    repeat match goal with
           | |- context [Z.testbit ?x ?i] => rewrite (Z.testbit_neg_r x i) by lia
           end; btauto.
Qed.

Lemma quantum_bytes_3 (a b c : byte) :
  let val := group3 a b c in
  base64.quantum_bytes
    [Z.land (Z.shiftr val 18) 0x3F; Z.land (Z.shiftr val 12) 0x3F;
     Z.land (Z.shiftr val 6) 0x3F; Z.land val 0x3F] = [a; b; c].
Proof.
  intros val. unfold base64.quantum_bytes. cbn [nth List.length Nat.sub firstn].
  rewrite sextets_recombine.
  destruct (group3_bytes (Z_of_byte a) (Z_of_byte b) (Z_of_byte c)
              (Z_of_byte_range a) (Z_of_byte_range b) (Z_of_byte_range c))
    as (E & Ea & Eb & Ec).
  fold (group3 a b c) in E, Ea, Eb, Ec. fold val in E, Ea, Eb, Ec. rewrite E.
  f_equal; [|f_equal; [|f_equal]]; apply Z_of_byte_inj; rewrite Z_of_byte_of_Z; assumption.
Qed.

Lemma quantum_bytes_1 (a : byte) :
  let val := Z.shiftl (Z_of_byte a) 16 in
  base64.quantum_bytes
    [Z.land (Z.shiftr val 18) 0x3F; Z.land (Z.shiftr val 12) 0x3F] = [a].
Proof.
  intros val. unfold base64.quantum_bytes. cbn [nth List.length Nat.sub firstn].
  f_equal. apply Z_of_byte_inj. rewrite Z_of_byte_of_Z. subst val.
  pose proof (Z_of_byte_range a) as Ha. generalize dependent (Z_of_byte a). intros A Ha.
  rewrite <- (Z.mod_small A (2 ^ 8)) by lia. rewrite <- !Z.land_ones by lia.
  change 256 with (2 ^ 8). rewrite <- !Z.land_ones by lia. change 0x3F with (Z.ones 6).
  Z.bitblast; Z.bitblast_core;
    repeat match goal with
           | |- context [Z.testbit ?x ?i] => rewrite (Z.testbit_neg_r x i) by lia
           end; btauto.
Qed.

Lemma quantum_bytes_2 (a b : byte) :
  let val := Z.lor (Z.shiftl (Z_of_byte a) 16) (Z.shiftl (Z_of_byte b) 8) in
  base64.quantum_bytes
    [Z.land (Z.shiftr val 18) 0x3F; Z.land (Z.shiftr val 12) 0x3F;
     Z.land (Z.shiftr val 6) 0x3F] = [a; b].
Proof.
  intros val. unfold base64.quantum_bytes. cbn [nth List.length Nat.sub firstn].
  subst val.
  pose proof (Z_of_byte_range a) as Ha. pose proof (Z_of_byte_range b) as Hb.
  f_equal; [|f_equal]; apply Z_of_byte_inj; rewrite Z_of_byte_of_Z.
  all: generalize dependent (Z_of_byte b); intros B Hb.
  all: generalize dependent (Z_of_byte a); intros A Ha.
  all: rewrite <- (Z.mod_small A (2 ^ 8)), <- (Z.mod_small B (2 ^ 8)) by lia.
  all: change 256 with (2 ^ 8); rewrite <- !Z.land_ones by lia; change 0x3F with (Z.ones 6).
  all: Z.bitblast; Z.bitblast_core;
    repeat match goal with
           | |- context [Z.testbit ?x ?i] => rewrite (Z.testbit_neg_r x i) by lia
           end; btauto.
Qed.

Lemma Decode_sextet (c : ascii) (v : Z) rest si dbuf out :
  base64.decodeMap c = Some v ->
  base64.Decode (String c rest) si dbuf out =
  if (List.length (dbuf ++ [v]) =? 4)%nat
  then base64.Decode rest (si + 1) [] (out ++ base64.quantum_bytes (dbuf ++ [v]))
  else base64.Decode rest (si + 1) (dbuf ++ [v]) out.
Proof.
  intros H. cbn [base64.Decode]. rewrite H. reflexivity.
Qed.

Lemma list_ind3 {A} (P : list A -> Prop) :
  P [] -> (forall a, P [a]) -> (forall a b, P [a; b]) ->
  (forall a b c l, P l -> P (a :: b :: c :: l)) ->
  forall l, P l.
Proof.
  intros H0 H1 H2 H3.
  fix IH 1. intros [|a [|b [|c l]]]; [apply H0 | apply H1 | apply H2 | apply H3, IH].
Qed.

Lemma Decode_pad2 (s0 s1 : Z) si out :
  base64.Decode "==" si [s0; s1] out = (out ++ base64.quantum_bytes [s0; s1], None).
Proof. reflexivity. Qed.

Lemma Decode_pad1 (s0 s1 s2 : Z) si out :
  base64.Decode "=" si [s0; s1; s2] out = (out ++ base64.quantum_bytes [s0; s1; s2], None).
Proof. reflexivity. Qed.

Lemma Decode_EncodeToString (l : list byte) :
  forall si out, base64.Decode (base64.EncodeToString l) si [] out = (out ++ l, None).
Proof.
  induction l as [|a|a b|a b c l IH] using list_ind3; intros si out.
  - cbn. now rewrite app_nil_r.
  - cbn [base64.EncodeToString].
    rewrite !(Decode_sextet _ _ _ _ _ _ (decodeMap_encode _ (sextet_range _))).
    cbn [List.length app Nat.eqb].
    change (String base64.padChar (String base64.padChar EmptyString)) with "=="%string.
    rewrite Decode_pad2. now rewrite quantum_bytes_1.
  - cbn [base64.EncodeToString].
    rewrite !(Decode_sextet _ _ _ _ _ _ (decodeMap_encode _ (sextet_range _))).
    cbn [List.length app Nat.eqb].
    change (String base64.padChar EmptyString) with "="%string.
    rewrite Decode_pad1. now rewrite quantum_bytes_2.
  - cbn [base64.EncodeToString].
    rewrite !(Decode_sextet _ _ _ _ _ _ (decodeMap_encode _ (sextet_range _))).
    cbn [List.length app Nat.eqb].
    rewrite IH. fold (group3 a b c). rewrite quantum_bytes_3.
    now rewrite <- app_assoc.
Qed.

Lemma length_EncodeToString (l : list byte) :
  String.length (base64.EncodeToString l) = (4 * ((List.length l + 2) / 3))%nat.
Proof.
  induction l as [|a|a b|a b c l IH] using list_ind3; try reflexivity.
  cbn [base64.EncodeToString String.length List.length]. rewrite IH.
  replace (S (S (S (Datatypes.length l))) + 2)%nat with (1 * 3 + (List.length l + 2))%nat by lia.
  rewrite Nat.div_add_l by lia. lia.
Qed.

(** ** Digests, slices and the run of [Encrypt] *)

Lemma length_md5_Sum (data : list byte) : List.length (md5.Sum data) = 16%nat.
Proof.
  unfold md5.Sum. destruct (md5.blocks _ _ _). reflexivity.
Qed.

Lemma length_hmac_Sum (h : hmac.Hash) : List.length (hmac.Sum h []) = 16%nat.
Proof. unfold hmac.Sum. cbn [app]. apply length_md5_Sum. Qed.

Lemma length_mac h msg : List.length (mac h msg) = 16%nat.
Proof. apply length_hmac_Sum. Qed.

Lemma slice_to_ok (l : list byte) (hi : nat) :
  (hi <= List.length l)%nat -> slice_to l hi = Returns (firstn hi l).
Proof.
  intros H. unfold slice_to, reslice, cap. cbn [backing Nat.leb andb].
  destruct (Nat.leb_spec hi (List.length l)); [|lia].
  now rewrite Nat.sub_0_r.
Qed.

Lemma length_ApplyScaleFactor price sf dbg :
  List.length (helpers.ApplyScaleFactor price sf dbg) = 8%nat.
Proof.
  unfold helpers.ApplyScaleFactor. destruct (helpers.scaled_micros price sf); reflexivity.
Qed.

(** One step of a method body: projections and hash operations reduced. *)
Ltac run_go :=
  cbn [self sink integrityKey encryptionKey scaleFactor fst snd
         hash.Reset hash.Write hash.Sum hmac.Hash_hmac
         hmac.Reset hmac.Write hmac.keyBlock hmac.written app].

Lemma Encrypt_returns (w : World) seed price dbg :
  exists w',
    Encrypt seed price dbg w =
      Returns ((base64.EncodeToString (envelope (self w) seed price dbg), None), w')
    /\ same_codec (self w) (self w').
Proof.
  unfold Encrypt, envelope, mac, bind, receiver, HmacSum_encryptionKey, HmacSum_integrityKey,
    try, when, glog_Info, ret, helpers.HmacSum.
  destruct dbg; run_go.
  all: rewrite slice_to_ok by (rewrite length_hmac_Sum; lia); run_go.
  all: rewrite slice_to_ok by (rewrite length_hmac_Sum; lia).
  all: eexists; split; [reflexivity|]; repeat split.
Qed.

(** ** Masking and comparison *)

Lemma byte_xor_cancel (a b : byte) : byte_xor a (byte_xor a b) = b.
Proof.
  apply Z_of_byte_inj. rewrite !Z_of_byte_xor.
  now rewrite <- Z.lxor_assoc, Z.lxor_nilpotent, Z.lxor_0_l.
Qed.

Lemma byte_xor_assoc (a b c : byte) :
  byte_xor a (byte_xor b c) = byte_xor (byte_xor a b) c.
Proof.
  apply Z_of_byte_inj. rewrite !Z_of_byte_xor. now rewrite Z.lxor_assoc.
Qed.

Lemma length_xor_bytes (a b : list byte) :
  List.length (xor_bytes a b) = Nat.min (List.length a) (List.length b).
Proof.
  revert b. induction a as [|x a IH]; intros [|y b]; cbn; auto.
Qed.

Lemma xor_bytes_cancel (a b : list byte) :
  (List.length b <= List.length a)%nat -> xor_bytes a (xor_bytes a b) = b.
Proof.
  revert b. induction a as [|x a IH]; intros [|y b] H; cbn in *; try reflexivity; try lia.
  rewrite byte_xor_cancel, IH by lia. reflexivity.
Qed.

Lemma byte_eqb_refl (b : byte) : Byte.eqb b b = true.
Proof. now apply Byte.byte_dec_lb. Qed.

Lemma bytes_differ_refl (l : list byte) : bytes_differ l l = false.
Proof.
  induction l as [|x l IH]; cbn; [reflexivity|].
  now rewrite byte_eqb_refl, IH.
Qed.

(** ** The three fields of an envelope *)

Lemma envelope_fields (iv enc sig rest : list byte) :
  List.length iv = 16%nat -> List.length enc = 8%nat -> List.length sig = 4%nat ->
  let env := (iv ++ enc ++ sig) ++ rest in
  firstn 16 env = iv /\ firstn 8 (skipn 16 env) = enc /\
  firstn 4 (skipn 24 env) = sig.
Proof.
  intros Hiv Henc Hsig env. subst env.
  rewrite <- !app_assoc.
  repeat split.
  - rewrite firstn_app, Hiv, Nat.sub_diag, firstn_O, app_nil_r.
    rewrite <- Hiv. apply firstn_all.
  - rewrite skipn_app, Hiv, Nat.sub_diag, skipn_O.
    rewrite <- Hiv at 1. rewrite skipn_all. cbn [app].
    rewrite firstn_app, Henc, Nat.sub_diag, firstn_O, app_nil_r.
    rewrite <- Henc. apply firstn_all.
  - replace 24%nat with (List.length (iv ++ enc)) by (rewrite length_app; lia).
    rewrite app_assoc, skipn_app, Nat.sub_diag, skipn_O, skipn_all. cbn [app].
    rewrite firstn_app, Hsig, Nat.sub_diag, firstn_O, app_nil_r.
    rewrite <- Hsig. apply firstn_all.
Qed.

Lemma length_envelope dc seed price dbg :
  List.length (envelope dc seed price dbg) = 28%nat.
Proof.
  unfold envelope. rewrite !length_app, length_xor_bytes, !length_firstn.
  rewrite !length_mac, length_md5_Sum, length_ApplyScaleFactor. reflexivity.
Qed.

(** [Decrypt]'s reading of an envelope made by [Encrypt] with the same keys:
    the tag matches and the micros come back. *)
Lemma open_envelope_envelope dc dc' seed price dbg rest :
  same_codec dc dc' ->
  open_envelope dc' (envelope dc seed price dbg ++ rest) =
  (PrimFloat.div
     (float64_of_uint64
        (binary.Uint64 (helpers.ApplyScaleFactor price (scaleFactor dc) dbg)))
     (scaleFactor dc), None).
Proof.
  intros (He & Hi & Hs). unfold open_envelope, envelope.
  set (data := helpers.ApplyScaleFactor price (scaleFactor dc) dbg).
  set (iv := md5.Sum (bytes_of_string seed)).
  assert (Hmac_e : forall m, mac (encryptionKey dc') m = mac (encryptionKey dc) m)
    by (intros m; unfold mac; now rewrite He).
  assert (Hmac_i : forall m, mac (integrityKey dc') m = mac (integrityKey dc) m)
    by (intros m; unfold mac; now rewrite Hi).
  destruct (envelope_fields iv (xor_bytes (firstn 8 (mac (encryptionKey dc) iv)) data)
              (firstn 4 (mac (integrityKey dc) (data ++ iv))) rest) as (E1 & E2 & E3).
  - apply length_md5_Sum.
  - rewrite length_xor_bytes, length_firstn, length_mac.
    unfold data. now rewrite length_ApplyScaleFactor.
  - now rewrite length_firstn, length_mac.
  - rewrite E1, E2, E3, Hmac_e, Hmac_i.
    rewrite xor_bytes_cancel.
    + rewrite bytes_differ_refl, <- Hs. reflexivity.
    + rewrite length_firstn, length_mac. unfold data.
      rewrite length_ApplyScaleFactor. cbn. lia.
Qed.

(** ** Tokens: encoding, padding repair, decoding *)

Lemma DecodeString_EncodeToString (l : list byte) :
  base64.DecodeString (base64.EncodeToString l) =
  (mkSlice (l ++ zeros (base64.DecodedLen (String.length (base64.EncodeToString l))
                        - List.length l)) (List.length l), None).
Proof.
  unfold base64.DecodeString. rewrite Decode_EncodeToString. reflexivity.
Qed.

Lemma AddBase64Padding_EncodeToString (l : list byte) :
  helpers.AddBase64Padding (base64.EncodeToString l) = base64.EncodeToString l.
Proof.
  unfold helpers.AddBase64Padding. rewrite length_EncodeToString.
  rewrite Nat.mul_comm, Nat.Div0.mod_mul. reflexivity.
Qed.

(** A token of 28 bytes is 40 characters long and decodes to a slice of
    length 28 and capacity 30. *)
Lemma token_28 (env : list byte) :
  List.length env = 28%nat ->
  String.length (base64.EncodeToString env) = 40%nat /\
  base64.DecodeString (base64.EncodeToString env) = (mkSlice (env ++ zeros 2) 28, None).
Proof.
  intros H. rewrite DecodeString_EncodeToString, length_EncodeToString, H. split; reflexivity.
Qed.

(** ** The run of [Decrypt] *)

Lemma reslice_ok (s : slice) (lo hi : nat) :
  (lo <= hi <= cap s)%nat ->
  reslice s lo hi = Returns (firstn (hi - lo) (skipn lo (backing s))).
Proof.
  intros [H1 H2]. unfold reslice.
  destruct (Nat.leb_spec lo hi); [|lia]. destruct (Nat.leb_spec hi (cap s)); [|lia].
  reflexivity.
Qed.

Lemma reslice_panics (s : slice) (lo hi : nat) :
  (cap s < hi)%nat ->
  reslice s lo hi = Panics "runtime error: slice bounds out of range".
Proof.
  intros H. unfold reslice.
  destruct (Nat.leb_spec hi (cap s)); [lia|]. now rewrite andb_false_r.
Qed.

Lemma Decrypt_returns (s : string) (d : slice) (dbg : bool) (w : World) :
  base64.DecodeString (helpers.AddBase64Padding s) = (d, None) ->
  (28 <= cap d)%nat ->
  exists w',
    Decrypt s dbg w = Returns (open_envelope (self w) (backing d), w')
    /\ same_codec (self w) (self w').
Proof.
  intros Hd Hcap.
  unfold Decrypt, open_envelope, mac, bind, receiver. rewrite Hd.
  unfold bind, HmacSum_encryptionKey, HmacSum_integrityKey,
    try, when, glog_Info, ret, helpers.HmacSum.
  rewrite !reslice_ok by lia.
  cbn [Nat.sub]. rewrite skipn_O.
  destruct dbg; run_go.
  all: rewrite slice_to_ok by (rewrite length_hmac_Sum; lia); run_go.
  all: rewrite slice_to_ok by (rewrite length_hmac_Sum; lia); run_go.
  all: unfold hmac.Write, hmac.Reset; cbn [hmac.keyBlock hmac.written app].
  all: match goal with
       | |- context [bytes_differ ?a ?b] => destruct (bytes_differ a b)
       end.
  all: eexists; split; [reflexivity|]; repeat split.
Qed.

Lemma Decrypt_malformed (s : string) (d : slice) (e : error_value) (dbg : bool) (w : World) :
  base64.DecodeString (helpers.AddBase64Padding s) = (d, Some e) ->
  Decrypt s dbg w = Returns ((PrimFloat.zero, Some e), w).
Proof.
  intros Hd. unfold Decrypt, bind, receiver. rewrite Hd. reflexivity.
Qed.

Lemma Decrypt_short (s : string) (d : slice) (dbg : bool) (w : World) :
  base64.DecodeString (helpers.AddBase64Padding s) = (d, None) ->
  (cap d < 28)%nat ->
  Decrypt s dbg w = Panics "runtime error: slice bounds out of range".
Proof.
  intros Hd Hcap.
  unfold Decrypt, bind, receiver. rewrite Hd.
  unfold bind, try, when, glog_Info, ret.
  rewrite (reslice_panics d 24 28) by lia.
  destruct dbg; run_go.
  all: destruct (reslice d 0 16) as [iv|r] eqn:E0;
    [|unfold reslice in E0; destruct (_ && _) in E0; congruence].
  all: destruct (reslice d 16 24) as [p|r] eqn:E1;
    [|unfold reslice in E1; destruct (_ && _) in E1; congruence].
  all: reflexivity.
Qed.

Lemma EncodeToString_28_padded (env : list byte) :
  List.length env = 28%nat -> substring 38 2 (base64.EncodeToString env) = "=="%string.
Proof.
  intros H.
  do 29 (destruct env as [|? env]; try discriminate H).
  reflexivity.
Qed.

Lemma DecodeString_shape (s : string) (d : slice) (e : error) :
  base64.DecodeString s = (d, e) ->
  exists k, backing d = elems d ++ zeros k /\ len d = List.length (elems d).
Proof.
  unfold base64.DecodeString. destruct (base64.Decode s 0 [] []) as [out err].
  intros H. injection H as <- <-. unfold elems. cbn [backing len].
  rewrite firstn_app, Nat.sub_diag, firstn_O, app_nil_r, firstn_all.
  eexists. split; reflexivity.
Qed.

Lemma open_envelope_prefix (dc : DoubleClickPricer) (env env' : list byte) :
  firstn 28 env = firstn 28 env' -> open_envelope dc env = open_envelope dc env'.
Proof.
  intros H.
  assert (E : forall l : list byte, firstn 16 l = firstn 16 (firstn 28 l) /\
                        firstn 8 (skipn 16 l) = firstn 8 (skipn 16 (firstn 28 l)) /\
                        firstn 4 (skipn 24 l) = firstn 4 (skipn 24 (firstn 28 l))).
  { intros l. rewrite !skipn_firstn_comm, !firstn_firstn. repeat split. }
  unfold open_envelope.
  destruct (E env) as (-> & -> & ->). destruct (E env') as (-> & -> & ->).
  now rewrite H.
Qed.

Lemma envelope_same_codec dc dc' seed price dbg dbg' :
  same_codec dc dc' -> envelope dc seed price dbg = envelope dc' seed price dbg'.
Proof.
  intros (He & Hi & Hs). unfold envelope, mac. now rewrite He, Hi, Hs.
Qed.

Lemma same_codec_refl dc : same_codec dc dc.
Proof. repeat split. Qed.

Lemma example_pricer_built :
  NewDoubleClickPricer example_encryptionKey example_integrityKey false
    helpers.Hexadecimal 1000000%float false [] = ((Some example_pricer, None), []).
Proof. vm_compute. reflexivity. Qed.

(** ** The token that [Encrypt] returns *)

(** [Encrypt] never panics and never returns an error: it returns the padded
    base64 text of the 28-byte envelope, and decoding that text gives the
    envelope back. *)
Lemma Encrypt_token (w : World) (seed : string) (price : float64) (dbg : bool) :
  exists token w',
    Encrypt seed price dbg w = Returns ((token, None), w') /\
    same_codec (self w) (self w') /\
    token = base64.EncodeToString (envelope (self w) seed price dbg) /\
    String.length token = 40%nat /\
    helpers.AddBase64Padding token = token /\
    base64.DecodeString token =
      (mkSlice (envelope (self w) seed price dbg ++ zeros 2) 28, None).
Proof.
  destruct (Encrypt_returns w seed price dbg) as (w' & E & S).
  destruct (token_28 _ (length_envelope (self w) seed price dbg)) as (L & D).
  exists (base64.EncodeToString (envelope (self w) seed price dbg)), w'.
  repeat split; try assumption; try apply S.
  apply AddBase64Padding_EncodeToString.
Qed.

(** C10: for every seed and price, the token that [Encrypt] returns is
    exactly 40 characters long and ends with "==" (the padding of base64url
    is kept), and it decodes to exactly 28 bytes. *)
Theorem Encrypt_token_is_40_chars_padded
  (w : World) (seed : string) (price : float64) (dbg : bool) :
  exists token w' d,
    Encrypt seed price dbg w = Returns ((token, None), w') /\
    String.length token = 40%nat /\
    substring 38 2 token = "=="%string /\
    base64.DecodeString token = (d, None) /\
    List.length (elems d) = 28%nat.
Proof.
  destruct (Encrypt_token w seed price dbg) as (token & w' & E & _ & T & L & _ & D).
  exists token, w', (mkSlice (envelope (self w) seed price dbg ++ zeros 2) 28).
  repeat split; try assumption.
  - subst token. apply EncodeToString_28_padded, length_envelope.
  - unfold elems. cbn [backing len].
    rewrite <- (length_envelope (self w) seed price dbg) at 1.
    rewrite firstn_app, Nat.sub_diag, firstn_O, app_nil_r, firstn_all.
    apply length_envelope.
Qed.

(** C6: for every seed and price, the first 16 bytes of the decoded token
    that [Encrypt] returns are the MD5 digest of the bytes of the seed; the
    initialization vector depends on the seed alone. *)
Theorem Encrypt_iv_is_md5_of_seed
  (w : World) (seed : string) (price : float64) (dbg : bool) :
  exists token w' d,
    Encrypt seed price dbg w = Returns ((token, None), w') /\
    base64.DecodeString token = (d, None) /\
    firstn 16 (elems d) = md5.Sum (bytes_of_string seed) /\
    List.length (md5.Sum (bytes_of_string seed)) = 16%nat.
Proof.
  destruct (Encrypt_token w seed price dbg) as (token & w' & E & _ & T & L & _ & D).
  exists token, w', (mkSlice (envelope (self w) seed price dbg ++ zeros 2) 28).
  repeat split; try assumption; [|apply length_md5_Sum].
  unfold elems. cbn [backing len]. rewrite firstn_firstn. cbn [Nat.min].
  unfold envelope. rewrite <- !app_assoc.
  rewrite firstn_app, length_md5_Sum, Nat.sub_diag, firstn_O, app_nil_r.
  rewrite <- (length_md5_Sum (bytes_of_string seed)) at 1. apply firstn_all.
Qed.

(** C8: [Encrypt] is a function of the keys, the scale factor, the seed and
    the price: a second call on the state the first one leaves, and a call on
    any pricer with the same keys and scale factor, whatever its hash contexts
    hold and whatever the debug flags, return the very same token. *)
Theorem Encrypt_deterministic
  (w : World) (seed : string) (price : float64) (dbg : bool) :
  exists token w1,
    Encrypt seed price dbg w = Returns ((token, None), w1) /\
    (forall dbg', result (Encrypt seed price dbg' w1) = Returns (token, None)) /\
    (forall w2 dbg2, same_codec (self w) (self w2) ->
       result (Encrypt seed price dbg2 w2) = Returns (token, None)).
Proof.
  destruct (Encrypt_returns w seed price dbg) as (w1 & E & S).
  exists (base64.EncodeToString (envelope (self w) seed price dbg)), w1.
  split; [exact E|].
  assert (G : forall w2 dbg2, same_codec (self w) (self w2) ->
            result (Encrypt seed price dbg2 w2) =
            Returns (base64.EncodeToString (envelope (self w) seed price dbg), None)).
  { intros w2 dbg2 S2.
    destruct (Encrypt_returns w2 seed price dbg2) as (w3 & E2 & _).
    rewrite E2. cbn [result].
    now rewrite (envelope_same_codec (self w) (self w2) seed price dbg dbg2 S2). }
  split; [intros dbg'; apply G, S | exact G].
Qed.

(** C7: the four bytes that [Encrypt] places at offsets 24..27 of the
    envelope are the first four bytes of the HMAC, under the integrity key, of
    the 8-byte array of the clear micros followed by the 16-byte IV (for a
    price in range that array is the big-endian micros); [Decrypt] computes
    the tag it expects over the unmasked bytes followed by the IV in the
    same way. *)
Theorem tag_covers_clear_micros_then_iv
  (w : World) (seed : string) (price : float64) (dbg : bool) :
  let dc := self w in
  let data := helpers.ApplyScaleFactor price (scaleFactor dc) dbg in
  let iv := md5.Sum (bytes_of_string seed) in
  (forall m, helpers.scaled_micros price (scaleFactor dc) = Some m ->
             data = binary.PutUint64 m) /\
  (exists token w' d,
     Encrypt seed price dbg w = Returns ((token, None), w') /\
     base64.DecodeString token = (d, None) /\
     reslice d 0 16 = Returns iv /\
     reslice d 24 28 = Returns (firstn 4 (mac (integrityKey dc) (data ++ iv)))) /\
  (forall s d dbg',
     base64.DecodeString (helpers.AddBase64Padding s) = (d, None) ->
     (28 <= cap d)%nat ->
     let iv' := firstn 16 (backing d) in
     let p := firstn 8 (skipn 16 (backing d)) in
     let tag := firstn 4 (skipn 24 (backing d)) in
     let micros := xor_bytes (firstn 8 (mac (encryptionKey dc) iv')) p in
     result (Decrypt s dbg' w) =
     Returns
       (if bytes_differ (firstn 4 (mac (integrityKey dc) (micros ++ iv'))) tag
        then (PrimFloat.zero, errors.New "Failed to decrypt")
        else (PrimFloat.div (float64_of_uint64 (binary.Uint64 micros))
                (scaleFactor dc), None))).
Proof.
  intros dc data iv. split; [|split].
  - intros m Hm. unfold data, helpers.ApplyScaleFactor. now rewrite Hm.
  - destruct (Encrypt_token w seed price dbg) as (token & w' & E & _ & T & L & _ & D).
    exists token, w', (mkSlice (envelope (self w) seed price dbg ++ zeros 2) 28).
    destruct (envelope_fields iv
                (xor_bytes (firstn 8 (mac (encryptionKey dc) iv)) data)
                (firstn 4 (mac (integrityKey dc) (data ++ iv))) (zeros 2))
      as (F1 & _ & F3).
    { apply length_md5_Sum. }
    { rewrite length_xor_bytes, length_firstn, length_mac.
      unfold data. now rewrite length_ApplyScaleFactor. }
    { now rewrite length_firstn, length_mac. }
    repeat split; try assumption.
    + rewrite reslice_ok
        by (unfold cap; cbn [backing]; rewrite length_app, length_envelope; cbn; lia).
      cbn [backing Nat.sub]. rewrite skipn_O. f_equal. exact F1.
    + rewrite reslice_ok
        by (unfold cap; cbn [backing]; rewrite length_app, length_envelope; cbn; lia).
      cbn [backing Nat.sub]. f_equal. exact F3.
  - intros s d dbg' Hd Hcap.
    destruct (Decrypt_returns s d dbg' w Hd Hcap) as (w' & E & _).
    rewrite E. reflexivity.
Qed.

(** C9: when the decoded token is longer than 28 bytes, [Decrypt] reads the
    first 28 bytes alone: its result, price or error, is the one it gives for
    a token that decodes to just those 28 bytes. *)
Theorem Decrypt_ignores_trailing_bytes
  (s s' : string) (d d' : slice) (dbg : bool) (w : World) :
  base64.DecodeString (helpers.AddBase64Padding s) = (d, None) ->
  (28 < len d)%nat ->
  base64.DecodeString (helpers.AddBase64Padding s') = (d', None) ->
  elems d' = firstn 28 (elems d) ->
  result (Decrypt s dbg w) = result (Decrypt s' dbg w).
Proof.
  intros Hd Hlen Hd' Hpre.
  destruct (DecodeString_shape _ _ _ Hd) as (k & B & L).
  destruct (DecodeString_shape _ _ _ Hd') as (k' & B' & L').
  assert (L28 : List.length (elems d') = 28%nat).
  { rewrite Hpre, length_firstn. lia. }
  assert (C : (28 <= cap d)%nat) by (unfold cap; rewrite B, length_app; lia).
  assert (C' : (28 <= cap d')%nat) by (unfold cap; rewrite B', length_app; lia).
  destruct (Decrypt_returns s d dbg w Hd C) as (w1 & E & _).
  destruct (Decrypt_returns s' d' dbg w Hd' C') as (w2 & E' & _).
  rewrite E, E'. cbn [result]. f_equal.
  apply open_envelope_prefix.
  assert (P : firstn 28 (backing d) = firstn 28 (elems d)).
  { rewrite B, firstn_app.
    replace (28 - List.length (elems d))%nat with 0%nat by lia.
    now rewrite firstn_O, app_nil_r. }
  assert (P' : firstn 28 (backing d') = elems d').
  { rewrite B', firstn_app, L28, Nat.sub_diag, firstn_O, app_nil_r.
    rewrite <- L28 at 1. apply firstn_all. }
  now rewrite P, P'.
Qed.

(** C3: a token that decodes successfully into a slice of capacity below 28,
    hence to fewer than 28 bytes, makes [Decrypt] panic on one of its three
    slice expressions; no error value is returned. *)
Theorem Decrypt_short_token_panics (s : string) (d : slice) (dbg : bool) (w : World) :
  base64.DecodeString (helpers.AddBase64Padding s) = (d, None) ->
  (cap d < 28)%nat ->
  (List.length (elems d) < 28)%nat /\
  Decrypt s dbg w = Panics "runtime error: slice bounds out of range".
Proof.
  intros Hd Hcap. split; [|now apply (Decrypt_short s d)].
  destruct (DecodeString_shape _ _ _ Hd) as (k & B & _).
  unfold cap in Hcap. rewrite B, length_app in Hcap. lia.
Qed.

(** C4 as amended: for a negative price, and for a price whose scaled value
    is not representable as an unsigned 64-bit integer, [Encrypt] returns a
    40-character token together with a nil error. *)
Theorem Encrypt_out_of_range_returns_token
  (w : World) (seed : string) (price : float64) (dbg : bool) :
  PrimFloat.ltb price 0 = true \/
  helpers.scaled_micros price (scaleFactor (self w)) = None ->
  exists token w',
    Encrypt seed price dbg w = Returns ((token, None), w') /\
    String.length token = 40%nat.
Proof.
  intros _.
  destruct (Encrypt_token w seed price dbg) as (token & w' & E & _ & _ & L & _).
  now exists token, w'.
Qed.

(** ** Micros: big-endian bytes and rounding *)

Lemma Uint64_PutUint64 (m : Z) :
  0 <= m < 2 ^ 64 -> binary.Uint64 (binary.PutUint64 m) = m.
Proof.
  intros H. unfold binary.Uint64, binary.PutUint64.
  cbn [map binary.be_uint]. rewrite !Z_of_byte_of_Z.
  cbn [Z.mul Pos.mul].
  rewrite <- (Z.mod_small m (2 ^ 64)) at 9 by lia.
  change 256 with (2 ^ 8).
  rewrite <- !Z.land_ones by lia.
  (Z.bitblast; do 8 Z.bitblast_core;
    repeat match goal with
           | |- context [Z.testbit ?x ?i] => rewrite (Z.testbit_neg_r x i) by lia
           end; try btauto).
Qed.

(** The integer nearest to a finite float is within one half of it. *)
Lemma round_SF_within_half (x : spec_float) (m : Z) :
  round_SF x = Some m -> (Qabs (inject_Z m - Q_of_SF x) <= 1 # 2)%Q.
Proof.
  assert (E : forall q : Q, (q == 0)%Q -> (Qabs q <= 1 # 2)%Q).
  { intros q ->. cbn. discriminate. }
  destruct x as [s|s| |s mant e]; unfold round_SF, Q_of_SF; try discriminate.
  - intros [= <-]. now apply E.
  - remember (Z.pos mant) as M eqn:HM.
    assert (HM0 : 0 < M) by lia. clear HM.
    destruct (Z.leb_spec 0 e) as [He|He]; intros H; injection H as <-.
    + apply E. destruct s; rewrite ?inject_Z_opp; ring.
    + set (k := - e) in *. set (D := 2 ^ k).
      assert (HD : 0 < D) by (apply Z.pow_pos_nonneg; lia).
      assert (Hh : D = 2 * 2 ^ (k - 1)).
      { unfold D. replace k with (1 + (k - 1)) at 1 by lia.
        rewrite Z.pow_add_r by lia. reflexivity. }
      set (h := 2 ^ (k - 1)) in *.
      pose proof (Z.div_mod (M + h) D ltac:(lia)) as Hdm.
      pose proof (Z.mod_pos_bound (M + h) D HD) as Hmb.
      set (q := (M + h) / D) in *.
      assert (P : Z.pos (Z.to_pos D) = D) by (apply Z2Pos.id; lia).
      clearbody q h D.
      apply Qabs_Qle_condition.
      destruct s; unfold Qle, Qminus, Qplus, Qopp, inject_Z; cbn [Qnum Qden];
        rewrite ?Pos.mul_1_l, ?Pos.mul_1_r, ?Pos2Z.inj_mul; split.
      all: rewrite <- ?Pos2Z.opp_pos, ?P; lia.
Qed.

Lemma scaled_micros_Some (price sf : float64) (m : Z) :
  helpers.scaled_micros price sf = Some m ->
  PrimFloat.ltb price 0 = false /\
  round_SF (Prim2SF (PrimFloat.mul price sf)) = Some m /\
  0 <= m < 2 ^ 64.
Proof.
  unfold helpers.scaled_micros.
  destruct (PrimFloat.ltb price 0); [discriminate|].
  destruct (round_SF _) as [m'|]; [|discriminate].
  destruct (Z.leb_spec 0 m'); destruct (Z.ltb_spec m' (2 ^ 64)); cbn [andb];
    try discriminate.
  intros [= <-]. repeat split; assumption.
Qed.

(** [Decrypt] on a token of [Encrypt], by a pricer with the same keys. *)
Lemma Decrypt_Encrypt (w w2 : World) (seed : string) (price : float64) (dbg dbg' : bool) :
  same_codec (self w) (self w2) ->
  result (Decrypt (base64.EncodeToString (envelope (self w) seed price dbg)) dbg' w2) =
  Returns
    (PrimFloat.div
       (float64_of_uint64
          (binary.Uint64 (helpers.ApplyScaleFactor price (scaleFactor (self w)) dbg)))
       (scaleFactor (self w)), None).
Proof.
  intros S.
  destruct (token_28 _ (length_envelope (self w) seed price dbg)) as (_ & D).
  destruct (Decrypt_returns (base64.EncodeToString (envelope (self w) seed price dbg))
              (mkSlice (envelope (self w) seed price dbg ++ zeros 2) 28) dbg' w2)
    as (w3 & E & _).
  - rewrite AddBase64Padding_EncodeToString. exact D.
  - unfold cap. cbn [backing]. rewrite length_app, length_envelope. cbn. lia.
  - rewrite E. cbn [result backing]. f_equal.
    now apply open_envelope_envelope.
Qed.

(** C1 as amended: for a non-negative price whose micros are representable,
    [Decrypt] on the token of [Encrypt], with the same keys, succeeds and
    returns the float64 quotient of the micros by the scale factor, where the
    micros are an integer within one half of the float64 product of the price
    and the scale factor. *)
Theorem Decrypt_Encrypt_returns_micros_over_scale
  (w : World) (seed : string) (price : float64) (dbg : bool) (m : Z) :
  helpers.scaled_micros price (scaleFactor (self w)) = Some m ->
  exists token w1,
    Encrypt seed price dbg w = Returns ((token, None), w1) /\
    (forall w2 dbg', same_codec (self w) (self w2) ->
       result (Decrypt token dbg' w2) =
       Returns (PrimFloat.div (float64_of_uint64 m) (scaleFactor (self w)), None)) /\
    same_codec (self w) (self w1) /\
    0 <= m < 2 ^ 64 /\
    (Qabs (inject_Z m - Q_of_float (PrimFloat.mul price (scaleFactor (self w))))
     <= 1 # 2)%Q.
Proof.
  intros Hm. destruct (scaled_micros_Some _ _ _ Hm) as (_ & Hr & Hrange).
  destruct (Encrypt_returns w seed price dbg) as (w1 & E & S).
  exists (base64.EncodeToString (envelope (self w) seed price dbg)), w1.
  repeat split; try assumption; try apply S; try apply Hrange.
  - intros w2 dbg' S2. rewrite (Decrypt_Encrypt w w2 seed price dbg dbg' S2).
    unfold helpers.ApplyScaleFactor. rewrite Hm.
    now rewrite Uint64_PutUint64.
  - now apply round_SF_within_half.
Qed.

(** ** Flipping one bit of an envelope *)

Lemma length_flip_bit (l : list byte) (i : nat) (k : Z) :
  List.length (flip_bit l i k) = List.length l.
Proof.
  revert i. induction l as [|b l IH]; intros [|i]; cbn; auto.
Qed.

Lemma flip_bit_app_l (a b : list byte) (i : nat) (k : Z) :
  (i < List.length a)%nat -> flip_bit (a ++ b) i k = flip_bit a i k ++ b.
Proof.
  revert i. induction a as [|x a IH]; intros [|i] H; cbn in *; try lia; try reflexivity.
  now rewrite IH by lia.
Qed.

Lemma flip_bit_app_r (a b : list byte) (j : nat) (k : Z) :
  flip_bit (a ++ b) (List.length a + j) k = a ++ flip_bit b j k.
Proof.
  induction a as [|x a IH]; cbn; [reflexivity|]. now rewrite IH.
Qed.

Lemma xor_bytes_flip_bit (a b : list byte) (i : nat) (k : Z) :
  xor_bytes a (flip_bit b i k) = flip_bit (xor_bytes a b) i k.
Proof.
  revert b i. induction a as [|x a IH]; intros [|y b] [|i]; cbn; try reflexivity.
  - now rewrite byte_xor_assoc.
  - now rewrite IH.
Qed.

(** A flipped bit changes the byte. *)
Lemma byte_xor_bit_neq (b : byte) (k : Z) :
  0 <= k < 8 -> Byte.eqb b (byte_xor b (byte_of_Z (2 ^ k))) = false.
Proof.
  intros Hk.
  destruct (Byte.eqb b (byte_xor b (byte_of_Z (2 ^ k)))) eqn:E; [|reflexivity].
  apply Byte.byte_dec_bl in E.
  apply (f_equal Z_of_byte) in E. rewrite Z_of_byte_xor, Z_of_byte_of_Z in E.
  assert (P : 0 < 2 ^ k < 256).
  { split; [apply Z.pow_pos_nonneg; lia|].
    change 256 with (2 ^ 8). apply Z.pow_lt_mono_r; lia. }
  rewrite Z.mod_small in E by lia.
  apply (f_equal (Z.lxor (Z_of_byte b))) in E.
  rewrite Z.lxor_nilpotent, <- Z.lxor_assoc, Z.lxor_nilpotent, Z.lxor_0_l in E.
  lia.
Qed.

Lemma bytes_differ_flip_bit (l : list byte) (i : nat) (k : Z) :
  (i < List.length l)%nat -> 0 <= k < 8 -> bytes_differ l (flip_bit l i k) = true.
Proof.
  revert i. induction l as [|b l IH]; intros [|i] H Hk; cbn in *; try lia.
  - now rewrite byte_xor_bit_neq.
  - rewrite IH by lia. apply orb_true_r.
Qed.

(** The bytes of the token of [Encrypt] are the envelope. *)
Lemma tamper_token (dc : DoubleClickPricer) seed price dbg (i : nat) (k : Z) :
  tamper (base64.EncodeToString (envelope dc seed price dbg)) i k =
  base64.EncodeToString (flip_bit (envelope dc seed price dbg) i k).
Proof.
  unfold tamper.
  destruct (token_28 _ (length_envelope dc seed price dbg)) as (_ & ->).
  unfold elems. cbn [fst backing len].
  rewrite <- (length_envelope dc seed price dbg) at 1.
  now rewrite firstn_app, Nat.sub_diag, firstn_O, app_nil_r, firstn_all.
Qed.

(** [Decrypt] on a 28-byte envelope, encoded. *)
Lemma Decrypt_encoded (env : list byte) (dbg : bool) (w : World) :
  List.length env = 28%nat ->
  result (Decrypt (base64.EncodeToString env) dbg w) =
  Returns (open_envelope (self w) env).
Proof.
  intros L. destruct (token_28 env L) as (_ & D).
  destruct (Decrypt_returns (base64.EncodeToString env) (mkSlice (env ++ zeros 2) 28) dbg w)
    as (w' & E & _).
  - now rewrite AddBase64Padding_EncodeToString.
  - unfold cap. cbn [backing]. rewrite length_app, L. cbn. lia.
  - rewrite E. cbn [result backing]. f_equal.
    apply open_envelope_prefix.
    rewrite firstn_app, L, Nat.sub_diag, firstn_O, app_nil_r. reflexivity.
Qed.

(** C2 as amended: on a token of [Encrypt] with one bit flipped, [Decrypt]
    fails with "Failed to decrypt" whenever the bit lies in the tag bytes
    (offsets 24..27); when it lies in the masked-price bytes (offsets 16..23)
    [Decrypt] fails in the same way unless the first four bytes of the HMAC of
    the altered micros and the IV are the tag of the token, and then it
    returns the price of the altered micros. *)
Theorem tampering_detected_up_to_tag_collision
  (w : World) (seed : string) (price : float64) (dbg : bool) :
  let dc := self w in
  let data := helpers.ApplyScaleFactor price (scaleFactor dc) dbg in
  let iv := md5.Sum (bytes_of_string seed) in
  let tag := firstn 4 (mac (integrityKey dc) (data ++ iv)) in
  exists token w1,
    Encrypt seed price dbg w = Returns ((token, None), w1) /\
    forall (i : nat) (k : Z) (dbg' : bool) (w2 : World),
      same_codec dc (self w2) -> 0 <= k < 8 ->
      ((24 <= i < 28)%nat ->
       result (Decrypt (tamper token i k) dbg' w2) =
       Returns (PrimFloat.zero, errors.New "Failed to decrypt")) /\
      ((16 <= i < 24)%nat ->
       let data' := flip_bit data (i - 16) k in
       result (Decrypt (tamper token i k) dbg' w2) =
       Returns
         (if bytes_differ (firstn 4 (mac (integrityKey dc) (data' ++ iv))) tag
          then (PrimFloat.zero, errors.New "Failed to decrypt")
          else (PrimFloat.div (float64_of_uint64 (binary.Uint64 data'))
                  (scaleFactor dc), None))).
Proof.
  intros dc data iv tag.
  destruct (Encrypt_returns w seed price dbg) as (w1 & E & _).
  exists (base64.EncodeToString (envelope (self w) seed price dbg)), w1.
  split; [exact E|].
  intros i k dbg' w2 (He & Hi & Hs) Hk.
  rewrite tamper_token.
  rewrite Decrypt_encoded by (rewrite length_flip_bit; apply length_envelope).
  set (pad := firstn 8 (mac (encryptionKey dc) iv)).
  assert (Lpad : List.length pad = 8%nat)
    by (unfold pad; now rewrite length_firstn, length_mac).
  assert (Ldata : List.length data = 8%nat) by apply length_ApplyScaleFactor.
  assert (Liv : List.length iv = 16%nat) by apply length_md5_Sum.
  assert (Lenc : List.length (xor_bytes pad data) = 8%nat)
    by (rewrite length_xor_bytes; lia).
  assert (Ltag : List.length tag = 4%nat)
    by (unfold tag; now rewrite length_firstn, length_mac).
  assert (Hmac_e : forall x, mac (encryptionKey (self w2)) x = mac (encryptionKey dc) x)
    by (intros x; unfold mac; now rewrite He).
  assert (Hmac_i : forall x, mac (integrityKey (self w2)) x = mac (integrityKey dc) x)
    by (intros x; unfold mac; now rewrite Hi).
  change (envelope (self w) seed price dbg) with (iv ++ xor_bytes pad data ++ tag).
  split; intros Hrange.
  - (* the tag bytes *)
    replace i with (List.length (iv ++ xor_bytes pad data) + (i - 24))%nat
      by (rewrite length_app; lia).
    rewrite app_assoc, flip_bit_app_r, <- app_assoc.
    destruct (envelope_fields iv (xor_bytes pad data) (flip_bit tag (i - 24) k) [])
      as (F1 & F2 & F3); try assumption; [now rewrite length_flip_bit|].
    rewrite app_nil_r in F1, F2, F3.
    unfold open_envelope. rewrite F1, F2, F3, Hmac_e, Hmac_i.
    fold pad. rewrite xor_bytes_cancel by lia. fold tag.
    rewrite bytes_differ_flip_bit by (try assumption; lia). reflexivity.
  - (* the masked-price bytes *)
    intros data'.
    replace i with (List.length iv + (i - 16))%nat by lia.
    rewrite flip_bit_app_r, flip_bit_app_l by lia.
    replace (List.length iv + (i - 16) - 16)%nat with (i - 16)%nat by lia.
    destruct (envelope_fields iv (flip_bit (xor_bytes pad data) (i - 16) k) tag [])
      as (F1 & F2 & F3); try assumption; [now rewrite length_flip_bit|].
    rewrite app_nil_r in F1, F2, F3.
    unfold open_envelope. rewrite F1, F2, F3, Hmac_e, Hmac_i.
    fold pad. rewrite <- xor_bytes_flip_bit.
    rewrite xor_bytes_cancel by (rewrite length_flip_bit; lia).
    fold data'. rewrite <- Hs. reflexivity.
Qed.

(** ** The debug flags *)

Lemma open_envelope_same_codec (a b : DoubleClickPricer) (env : list byte) :
  same_codec a b -> open_envelope a env = open_envelope b env.
Proof.
  intros (He & Hi & Hs). unfold open_envelope, mac. now rewrite He, Hi, Hs.
Qed.

(** The result of [Decrypt] depends on the keys, the scale factor and the
    token, not on the debug flag nor on what the hash contexts hold. *)
Lemma Decrypt_same_codec (s : string) (dbg dbg' : bool) (w w' : World) :
  same_codec (self w) (self w') ->
  result (Decrypt s dbg w) = result (Decrypt s dbg' w').
Proof.
  intros S.
  destruct (base64.DecodeString (helpers.AddBase64Padding s)) as [d [e|]] eqn:D.
  - now rewrite !(Decrypt_malformed s d e).
  - destruct (Nat.le_gt_cases 28 (cap d)) as [C|C].
    + destruct (Decrypt_returns s d dbg w D C) as (w1 & -> & _).
      destruct (Decrypt_returns s d dbg' w' D C) as (w2 & -> & _).
      cbn [result]. f_equal. now apply open_envelope_same_codec.
    + now rewrite !(Decrypt_short s d) by assumption.
Qed.

(** When construction succeeds in debug mode it succeeds without it, with
    the same keys and scale factor. *)
Lemma NewDoubleClickPricer_debug_built
  (kE kI : string) (b : bool) (m : helpers.KeyDecodingMode) (sf : float64)
  (lines lines' : glog.Sink) (dc : DoubleClickPricer) :
  NewDoubleClickPricer kE kI b m sf true lines = ((Some dc, None), lines') ->
  exists dc0,
    NewDoubleClickPricer kE kI b m sf false lines = ((Some dc0, None), lines) /\
    same_codec dc0 dc.
Proof.
  unfold NewDoubleClickPricer.
  destruct (helpers.CreateHmac kE b m) as [[hE|] [e|]]; try discriminate.
  destruct (helpers.CreateHmac kI b m) as [[hI|] [e|]]; try discriminate.
  destruct (hex.DecodeString kE) as [bE [e|]]; try discriminate.
  destruct (hex.DecodeString kI) as [bI [e|]]; try discriminate.
  intros H. injection H as <- _.
  eexists. split; [reflexivity|]. repeat split.
Qed.

(** C5: whenever the two keys are accepted and one of them is not
    hexadecimal text, construction succeeds when the debug flag is off and
    fails when it is on: the debug branch decodes the key strings as
    hexadecimal, whatever the decoding mode, and returns that decoder's
    error. *)
Theorem debug_mode_breaks_construction
  (kE kI : string) (b : bool) (m : helpers.KeyDecodingMode) (sf : float64)
  (lines : glog.Sink) (hE hI : hmac.Hash) :
  helpers.CreateHmac kE b m = (Some hE, None) ->
  helpers.CreateHmac kI b m = (Some hI, None) ->
  snd (hex.DecodeString kE) <> None \/ snd (hex.DecodeString kI) <> None ->
  (exists dc, NewDoubleClickPricer kE kI b m sf false lines = ((Some dc, None), lines)) /\
  (exists e lines',
     NewDoubleClickPricer kE kI b m sf true lines = ((None, Some e), lines')).
Proof.
  intros HE HI Hhex. unfold NewDoubleClickPricer. rewrite HE, HI.
  split; [eexists; reflexivity|].
  destruct (hex.DecodeString kE) as [bE [e|]]; [do 2 eexists; reflexivity|].
  destruct (hex.DecodeString kI) as [bI [e|]]; [do 2 eexists; reflexivity|].
  cbn [snd] in Hhex. destruct Hhex as [H|H]; now contradiction H.
Qed.

(** ** The properties on concrete inputs *)

Lemma Decrypt_Encrypt_returns_micros_over_scale_witness :
  helpers.scaled_micros 2.5%float (scaleFactor (self example_world)) = Some 2500000 /\
  result (Decrypt example_token false example_world) = Returns (2.5%float, None).
Proof.
  split; [vm_compute; reflexivity|].
  destruct (Decrypt_Encrypt_returns_micros_over_scale example_world "abc123" 2.5%float
              false 2500000) as (token & w1 & E & D & _).
  - vm_compute. reflexivity.
  - assert (T : token = example_token).
    { vm_compute in E. injection E as E _. now symmetry. }
    subst token.
    rewrite (D example_world false (same_codec_refl _)).
    vm_compute. reflexivity.
Defined.

(** C1 as stated fails: the price 1000000000001 is not negative and its
    micros, 1000000000000999936, are representable; [Decrypt] on the token of
    [Encrypt] returns 1000000000000.9999, which is further from the price
    than 0.5 / 1000000. *)
Lemma roundtrip_tolerance_counterexample :
  helpers.scaled_micros 1000000000001%float 1000000%float = Some 1000000000000999936 /\
  result (Encrypt "abc123" 1000000000001%float false example_world) =
    Returns ("6ZoYxCjLONXyYIU2eJIuAxpY8prk-bLXesK1vQ=="%string, None) /\
  result (Decrypt "6ZoYxCjLONXyYIU2eJIuAxpY8prk-bLXesK1vQ==" false example_world) =
    Returns (1000000000000.9999%float, None) /\
  ~ (Qabs (Q_of_float 1000000000000.9999%float - Q_of_float 1000000000001%float)
     <= (1 # 2) / Q_of_float 1000000%float)%Q.
Proof.
  repeat split; try (vm_compute; reflexivity).
  intros H. vm_compute in H. apply H. reflexivity.
Qed.

(** The tolerance of 0.5 / scaleFactor can also be missed, by the rounding of
    the product alone, for an everyday price. *)
Lemma roundtrip_tolerance_small_price :
  helpers.scaled_micros 860.9545095%float 1000000%float = Some 860954510 /\
  PrimFloat.div (float64_of_uint64 860954510) 1000000%float = 860.95451%float /\
  ~ (Qabs (Q_of_float 860.95451%float - Q_of_float 860.9545095%float)
     <= (1 # 2) / Q_of_float 1000000%float)%Q.
Proof.
  repeat split; try (vm_compute; reflexivity).
  intros H. vm_compute in H. apply H. reflexivity.
Qed.

Lemma tampering_detected_up_to_tag_collision_witness :
  same_codec (self example_world) (self example_world) /\ 0 <= 0 < 8 /\
  (24 <= 27 < 28)%nat /\ (16 <= 16 < 24)%nat /\
  result (Decrypt example_token_flipped false example_world) =
    Returns (PrimFloat.zero, errors.New "Failed to decrypt") /\
  result (Decrypt (tamper example_token 16 0) false example_world) =
    Returns (PrimFloat.zero, errors.New "Failed to decrypt").
Proof.
  split; [apply same_codec_refl|]. split; [lia|]. split; [lia|]. split; [lia|].
  destruct (tampering_detected_up_to_tag_collision example_world "abc123" 2.5%float false)
    as (token & w1 & E & T).
  assert (Tk : token = example_token).
  { vm_compute in E. injection E as E _. now symmetry. }
  subst token. split.
  - destruct (T 27%nat 0 false example_world (same_codec_refl _) ltac:(lia)) as (T1 & _).
    change example_token_flipped with (tamper example_token 27 0).
    apply T1. lia.
  - destruct (T 16%nat 0 false example_world (same_codec_refl _) ltac:(lia)) as (_ & T2).
    rewrite T2 by lia. vm_compute. reflexivity.
Defined.

(** C2 as stated fails: with the example keys, the token of seed "seed7" and
    price 53.66175 (micros 53661750) keeps a valid tag when bit 1 of byte 22
    of its envelope is flipped, and [Decrypt] returns the price of the micros
    53662262 with a nil error. *)
Lemma tamper_collision_counterexample :
  result (Encrypt "seed7" 53.66175%float false example_world) =
    Returns ("LWPYDshyoWDhsC62jt8LIeJ5w7cKCbMS1tZyKg=="%string, None) /\
  tamper "LWPYDshyoWDhsC62jt8LIeJ5w7cKCbMS1tZyKg==" 22 1 =
    "LWPYDshyoWDhsC62jt8LIeJ5w7cKCbES1tZyKg=="%string /\
  result (Decrypt "LWPYDshyoWDhsC62jt8LIeJ5w7cKCbES1tZyKg==" false example_world) =
    Returns (PrimFloat.div (float64_of_uint64 53662262) 1000000%float, None).
Proof.
  repeat split; vm_compute; reflexivity.
Qed.

Lemma Encrypt_out_of_range_returns_token_witness :
  (PrimFloat.ltb (-1)%float 0 = true \/
   helpers.scaled_micros (-1)%float (scaleFactor (self example_world)) = None) /\
  exists token w',
    Encrypt "abc123" (-1)%float false example_world = Returns ((token, None), w') /\
    String.length token = 40%nat.
Proof.
  split; [left; reflexivity|].
  apply (Encrypt_out_of_range_returns_token example_world "abc123" (-1)%float false).
  left. reflexivity.
Defined.

(** C4 as stated fails: for the negative price -1, and for the price 1e20,
    whose micros exceed the unsigned 64-bit range, [Encrypt] returns a token
    and a nil error. *)
Lemma Encrypt_out_of_range_counterexample :
  PrimFloat.ltb (-1)%float 0 = true /\
  result (Encrypt "abc123" (-1)%float false example_world) =
    Returns ("6ZoYxCjLONXyYIU2eJIuAxe4RClDivDX0o_GCQ=="%string, None) /\
  helpers.scaled_micros 1e20%float 1000000%float = None /\
  result (Encrypt "abc123" 1e20%float false example_world) =
    Returns ("6ZoYxCjLONXyYIU2eJIuAxe4RClDivDX0o_GCQ=="%string, None).
Proof.
  repeat split; vm_compute; reflexivity.
Qed.

Lemma debug_mode_breaks_construction_witness :
  (exists dc,
     NewDoubleClickPricer base64_encryptionKey base64_integrityKey true
       helpers.Base64Web 1000000%float false [] = ((Some dc, None), [])) /\
  (exists e lines',
     NewDoubleClickPricer base64_encryptionKey base64_integrityKey true
       helpers.Base64Web 1000000%float true [] = ((None, Some e), lines')).
Proof.
  apply (debug_mode_breaks_construction base64_encryptionKey base64_integrityKey true
           helpers.Base64Web 1000000%float []
           (hmac.New (elems (fst (base64.DecodeString base64_encryptionKey))))
           (hmac.New (elems (fst (base64.DecodeString base64_integrityKey))))).
  - vm_compute. reflexivity.
  - vm_compute. reflexivity.
  - left. vm_compute. discriminate.
Defined.

(** With the two base64 keys the error of the debug branch is that of the
    first character of the encryption key, which is no hexadecimal digit. *)
Lemma debug_mode_error_on_base64_keys :
  fst (NewDoubleClickPricer base64_encryptionKey base64_integrityKey true
         helpers.Base64Web 1000000%float true [])
  = (None, Some (InvalidByteError "s")).
Proof. vm_compute. reflexivity. Qed.

Lemma Decrypt_short_token_panics_witness :
  base64.DecodeString (helpers.AddBase64Padding "") = (mkSlice [] 0, None) /\
  (cap (mkSlice [] 0) < 28)%nat /\
  Decrypt "" false example_world = Panics "runtime error: slice bounds out of range".
Proof.
  split; [reflexivity|]. split; [cbn; lia|].
  apply (Decrypt_short_token_panics "" (mkSlice [] 0) false example_world).
  - reflexivity.
  - cbn. lia.
Defined.

Lemma tag_covers_clear_micros_then_iv_witness :
  helpers.scaled_micros 2.5%float (scaleFactor (self example_world)) = Some 2500000 /\
  base64.DecodeString (helpers.AddBase64Padding example_token) =
    (fst (base64.DecodeString example_token), None) /\
  (28 <= cap (fst (base64.DecodeString example_token)))%nat /\
  helpers.ApplyScaleFactor 2.5%float (scaleFactor (self example_world)) false =
    binary.PutUint64 2500000 /\
  result (Decrypt example_token false example_world) = Returns (2.5%float, None).
Proof.
  split; [vm_compute; reflexivity|]. split; [vm_compute; reflexivity|].
  split; [vm_compute; lia|].
  destruct (tag_covers_clear_micros_then_iv example_world "abc123" 2.5%float false)
    as (H1 & _ & H3).
  split.
  - apply H1. vm_compute. reflexivity.
  - rewrite (H3 example_token (fst (base64.DecodeString example_token)) false).
    + vm_compute. reflexivity.
    + vm_compute. reflexivity.
    + vm_compute. lia.
Defined.

Lemma Encrypt_deterministic_witness :
  same_codec (self example_world) (self example_debug_world) /\
  result (Encrypt "abc123" 2.5%float true example_debug_world) =
  result (Encrypt "abc123" 2.5%float false example_world).
Proof.
  assert (S : same_codec (self example_world) (self example_debug_world))
    by (repeat split).
  split; [exact S|].
  destruct (Encrypt_deterministic example_world "abc123" 2.5%float false)
    as (token & w1 & E & _ & D).
  rewrite E. cbn [result]. apply D. exact S.
Defined.

Lemma Decrypt_ignores_trailing_bytes_witness :
  (28 < len (fst (base64.DecodeString (helpers.AddBase64Padding example_token_long))))%nat /\
  elems (fst (base64.DecodeString (helpers.AddBase64Padding example_token))) =
    firstn 28 (elems (fst (base64.DecodeString
                             (helpers.AddBase64Padding example_token_long)))) /\
  result (Decrypt example_token_long false example_world) =
  result (Decrypt example_token false example_world).
Proof.
  split; [vm_compute; lia|]. split; [vm_compute; reflexivity|].
  apply (Decrypt_ignores_trailing_bytes example_token_long example_token
           (fst (base64.DecodeString (helpers.AddBase64Padding example_token_long)))
           (fst (base64.DecodeString (helpers.AddBase64Padding example_token)))).
  - vm_compute. reflexivity.
  - vm_compute. lia.
  - vm_compute. reflexivity.
  - vm_compute. reflexivity.
Defined.

(** * Further properties of the pricer *)

(** ** The states the methods leave *)

Lemma Encrypt_run (w : World) (seed : string) (price : float64) (dbg : bool) :
  Encrypt seed price dbg w =
  Returns ((base64.EncodeToString (envelope (self w) seed price dbg), None),
           after_Encrypt w seed price dbg).
Proof.
  unfold Encrypt, envelope, after_Encrypt, Encrypt_debug_lines, mac, bind, receiver,
    HmacSum_encryptionKey, HmacSum_integrityKey, try, when, glog_Info, ret,
    helpers.HmacSum.
  destruct dbg; run_go.
  all: rewrite slice_to_ok by (rewrite length_hmac_Sum; lia); run_go.
  all: rewrite slice_to_ok by (rewrite length_hmac_Sum; lia); run_go.
  all: unfold hmac.Write, hmac.Reset, glog.Info; cbn [hmac.keyBlock hmac.written app].
  all: rewrite <- ?app_assoc, ?app_nil_r; reflexivity.
Qed.

Lemma Decrypt_run (s : string) (d : slice) (dbg : bool) (w : World) :
  base64.DecodeString (helpers.AddBase64Padding s) = (d, None) ->
  (28 <= cap d)%nat ->
  Decrypt s dbg w =
  Returns (open_envelope (self w) (backing d),
           after_Decrypt w (helpers.AddBase64Padding s) d dbg).
Proof.
  intros Hd Hcap.
  unfold Decrypt, open_envelope, after_Decrypt, Decrypt_debug_lines, mac, bind, receiver.
  rewrite Hd.
  unfold bind, HmacSum_encryptionKey, HmacSum_integrityKey,
    try, when, glog_Info, ret, helpers.HmacSum.
  rewrite !reslice_ok by lia.
  cbn [Nat.sub]. rewrite skipn_O.
  destruct dbg; run_go.
  all: rewrite slice_to_ok by (rewrite length_hmac_Sum; lia); run_go.
  all: rewrite slice_to_ok by (rewrite length_hmac_Sum; lia); run_go.
  all: unfold hmac.Write, hmac.Reset, glog.Info; cbn [hmac.keyBlock hmac.written app].
  all: match goal with
       | |- context [bytes_differ ?a ?b] => destruct (bytes_differ a b)
       end.
  all: rewrite <- ?app_assoc, ?app_nil_r; reflexivity.
Qed.

Lemma same_configuration_after_Encrypt w seed price dbg :
  same_configuration (self w) (self (after_Encrypt w seed price dbg)).
Proof. repeat split. Qed.

Lemma same_configuration_after_Decrypt w padded d dbg :
  same_configuration (self w) (self (after_Decrypt w padded d dbg)).
Proof. repeat split. Qed.

Lemma same_configuration_same_codec a b :
  same_configuration a b -> same_codec a b.
Proof. intros (_ & _ & He & Hi & _ & Hs & _). repeat split; assumption. Qed.

(** What a returning call of [Decrypt] did: it stopped at a decoding error,
    or it read the three fields of a slice of capacity 28 at least. *)
Lemma Decrypt_Returns_inv (s : string) (dbg : bool) (w : World)
  (r : float64 * error) (w' : World) :
  Decrypt s dbg w = Returns (r, w') ->
  (exists d e, base64.DecodeString (helpers.AddBase64Padding s) = (d, Some e) /\
               r = (PrimFloat.zero, Some e) /\ w' = w) \/
  (exists d, base64.DecodeString (helpers.AddBase64Padding s) = (d, None) /\
             (28 <= cap d)%nat /\
             r = open_envelope (self w) (backing d) /\
             w' = after_Decrypt w (helpers.AddBase64Padding s) d dbg).
Proof.
  intros H.
  destruct (base64.DecodeString (helpers.AddBase64Padding s)) as [d [e|]] eqn:D.
  - left. exists d, e. rewrite (Decrypt_malformed s d e dbg w D) in H.
    injection H as <- <-. repeat split.
  - right. exists d. destruct (Nat.le_gt_cases 28 (cap d)) as [C|C].
    + rewrite (Decrypt_run s d dbg w D C) in H. injection H as <- <-. repeat split.
      assumption.
    + rewrite (Decrypt_short s d dbg w D C) in H. discriminate H.
Qed.

(** X1: the methods never change the configuration of the pricer: after a
    call of [Encrypt] or of [Decrypt] the raw key strings, the keys of the two
    hash contexts, the decoding mode, the scale factor and the debug flag are
    what they were. *)
Theorem methods_keep_configuration (w : World) :
  (forall seed price dbg r w',
     Encrypt seed price dbg w = Returns (r, w') ->
     same_configuration (self w) (self w')) /\
  (forall s dbg r w',
     Decrypt s dbg w = Returns (r, w') ->
     same_configuration (self w) (self w')).
Proof.
  split.
  - intros seed price dbg r w' H. rewrite Encrypt_run in H. injection H as _ <-.
    apply same_configuration_after_Encrypt.
  - intros s dbg r w' H.
    destruct (Decrypt_Returns_inv s dbg w r w' H)
      as [(d & e & _ & _ & ->)|(d & _ & _ & _ & ->)].
    + repeat split.
    + apply same_configuration_after_Decrypt.
Qed.

Lemma methods_keep_configuration_witness :
  Encrypt "abc123" 2.5%float true example_world =
    Returns ((example_token, None), after_Encrypt example_world "abc123" 2.5%float true) /\
  same_configuration (self example_world)
    (self (after_Encrypt example_world "abc123" 2.5%float true)).
Proof.
  assert (E : Encrypt "abc123" 2.5%float true example_world =
    Returns ((example_token, None), after_Encrypt example_world "abc123" 2.5%float true))
    by (vm_compute; reflexivity).
  split; [exact E|].
  destruct (methods_keep_configuration example_world) as (H & _).
  exact (H _ _ _ _ _ E).
Defined.

(** X2: without the debug flag nothing reaches the diagnostic sink:
    [NewDoubleClickPricer], [Encrypt] and [Decrypt] called with
    [isDebugMode = false] leave the sink as it was, whatever they return. *)
Theorem no_debug_flag_no_log :
  (forall kE kI b m sf lines,
     snd (NewDoubleClickPricer kE kI b m sf false lines) = lines) /\
  (forall w seed price r w',
     Encrypt seed price false w = Returns (r, w') -> sink w' = sink w) /\
  (forall w s r w',
     Decrypt s false w = Returns (r, w') -> sink w' = sink w).
Proof.
  split; [|split].
  - intros kE kI b m sf lines. unfold NewDoubleClickPricer.
    destruct (helpers.CreateHmac kE b m) as [[hE|] [e|]]; try reflexivity.
    destruct (helpers.CreateHmac kI b m) as [[hI|] [e|]]; reflexivity.
  - intros w seed price r w' H. rewrite Encrypt_run in H. injection H as _ <-.
    unfold after_Encrypt. cbn [sink]. apply app_nil_r.
  - intros w s r w' H.
    destruct (Decrypt_Returns_inv s false w r w' H)
      as [(d & e & _ & _ & ->)|(d & _ & _ & _ & ->)]; [reflexivity|].
    unfold after_Decrypt. cbn [sink]. apply app_nil_r.
Qed.

Lemma no_debug_flag_no_log_witness :
  Decrypt example_token false example_debug_world =
    Returns ((2.5%float, None),
             after_Decrypt example_debug_world example_token
               (fst (base64.DecodeString example_token)) false) /\
  sink (after_Decrypt example_debug_world example_token
          (fst (base64.DecodeString example_token)) false) = sink example_debug_world.
Proof.
  assert (E : Decrypt example_token false example_debug_world =
    Returns ((2.5%float, None),
             after_Decrypt example_debug_world example_token
               (fst (base64.DecodeString example_token)) false))
    by (vm_compute; reflexivity).
  split; [exact E|].
  destruct no_debug_flag_no_log as (_ & _ & H).
  exact (H _ _ _ _ E).
Defined.

(** X3: with the debug flag [Encrypt] appends the lines of its eight calls of
    [glog.Info] to the sink, among them the pad and the masked price: the log
    alone gives the clear bytes of the price, as the exclusive or of the
    two. *)
Theorem Encrypt_debug_log_discloses_micros
  (w : World) (seed : string) (price : float64) (r : string * error) (w' : World) :
  Encrypt seed price true w = Returns (r, w') ->
  exists pad enc,
    sink w' = sink w ++ Encrypt_debug_lines (self w) seed price /\
    List.length (Encrypt_debug_lines (self w) seed price) = 8%nat /\
    In [glog.Str "Pad : "; glog.Bytes pad] (sink w') /\
    In [glog.Str "Encoded price bytes : "; glog.Bytes enc] (sink w') /\
    xor_bytes pad enc = helpers.ApplyScaleFactor price (scaleFactor (self w)) true.
Proof.
  intros H. rewrite Encrypt_run in H. injection H as _ <-.
  set (data := helpers.ApplyScaleFactor price (scaleFactor (self w)) true).
  set (pad := firstn 8 (mac (encryptionKey (self w)) (md5.Sum (bytes_of_string seed)))).
  exists pad, (xor_bytes pad data).
  unfold after_Encrypt. cbn [sink].
  repeat split.
  - apply in_or_app. right. unfold Encrypt_debug_lines. fold data pad. cbn. tauto.
  - apply in_or_app. right. unfold Encrypt_debug_lines. fold data pad. cbn. tauto.
  - apply xor_bytes_cancel. unfold pad, data.
    rewrite length_firstn, length_mac, length_ApplyScaleFactor. cbn. lia.
Qed.

Lemma Encrypt_debug_log_discloses_micros_witness :
  Encrypt "abc123" 2.5%float true example_world =
    Returns ((example_token, None), after_Encrypt example_world "abc123" 2.5%float true) /\
  exists pad enc,
    In [glog.Str "Pad : "; glog.Bytes pad]
       (sink (after_Encrypt example_world "abc123" 2.5%float true)) /\
    In [glog.Str "Encoded price bytes : "; glog.Bytes enc]
       (sink (after_Encrypt example_world "abc123" 2.5%float true)) /\
    xor_bytes pad enc = binary.PutUint64 2500000.
Proof.
  assert (E : Encrypt "abc123" 2.5%float true example_world =
    Returns ((example_token, None), after_Encrypt example_world "abc123" 2.5%float true))
    by (vm_compute; reflexivity).
  split; [exact E|].
  destruct (Encrypt_debug_log_discloses_micros _ _ _ _ _ E)
    as (pad & enc & _ & _ & I1 & I2 & X).
  exists pad, enc. repeat split; assumption.
Defined.

(** X4: with the debug flag [Decrypt] logs nothing when the token does not
    decode (it returns before its first trace); otherwise it appends the
    lines of its six calls of [glog.Info], one of which is the pad in
    hexadecimal. *)
Theorem Decrypt_debug_log
  (w : World) (s : string) (r : float64 * error) (w' : World) :
  Decrypt s true w = Returns (r, w') ->
  let '(d, err) := base64.DecodeString (helpers.AddBase64Padding s) in
  match err with
  | Some _ => sink w' = sink w
  | None =>
      sink w' = sink w ++ Decrypt_debug_lines (self w) (helpers.AddBase64Padding s) d /\
      List.length (Decrypt_debug_lines (self w) (helpers.AddBase64Padding s) d) = 6%nat /\
      In [glog.Str "Pad : ";
          glog.Str (hex.EncodeToString
                      (firstn 8 (mac (encryptionKey (self w)) (firstn 16 (backing d)))))]
         (sink w')
  end.
Proof.
  intros H.
  destruct (Decrypt_Returns_inv s true w r w' H)
    as [(d & e & -> & _ & ->)|(d & -> & _ & _ & ->)]; [reflexivity|].
  unfold after_Decrypt. cbn [sink]. repeat split.
  apply in_or_app. right. unfold Decrypt_debug_lines. cbn. tauto.
Qed.

Lemma Decrypt_debug_log_witness :
  Decrypt example_token true example_world =
    Returns ((2.5%float, None),
             after_Decrypt example_world example_token
               (fst (base64.DecodeString example_token)) true) /\
  exists pad,
    In [glog.Str "Pad : "; glog.Str pad]
       (sink (after_Decrypt example_world example_token
                (fst (base64.DecodeString example_token)) true)).
Proof.
  assert (E : Decrypt example_token true example_world =
    Returns ((2.5%float, None),
             after_Decrypt example_world example_token
               (fst (base64.DecodeString example_token)) true))
    by (vm_compute; reflexivity).
  split; [exact E|].
  pose proof (Decrypt_debug_log example_world example_token _ _ E) as H.
  assert (D : base64.DecodeString (helpers.AddBase64Padding example_token) =
              (fst (base64.DecodeString example_token), None))
    by (vm_compute; reflexivity).
  rewrite D in H. destruct H as (_ & _ & H).
  eexists. exact H.
Defined.

(** ** Construction *)

(** X5: when a key is refused, [NewDoubleClickPricer] returns no pricer
    together with the error of the first refused key, and sends nothing to
    the sink, whatever the debug flag: the encryption key is tried first, the
    integrity key second. *)
Theorem NewDoubleClickPricer_key_error
  (kE kI : string) (b : bool) (m : helpers.KeyDecodingMode) (sf : float64)
  (dbg : bool) (lines : glog.Sink) (e : error_value) :
  (forall h, helpers.CreateHmac kE b m = (h, Some e) ->
     NewDoubleClickPricer kE kI b m sf dbg lines = ((None, Some e), lines)) /\
  (forall hE h, helpers.CreateHmac kE b m = (Some hE, None) ->
     helpers.CreateHmac kI b m = (h, Some e) ->
     NewDoubleClickPricer kE kI b m sf dbg lines = ((None, Some e), lines)).
Proof.
  split.
  - intros h H. unfold NewDoubleClickPricer. rewrite H. now destruct h.
  - intros hE h HE HI. unfold NewDoubleClickPricer. rewrite HE, HI. now destruct h.
Qed.

Lemma NewDoubleClickPricer_key_error_witness :
  helpers.CreateHmac "zz" false helpers.Hexadecimal = (None, Some (InvalidByteError "z")) /\
  helpers.CreateHmac "abc" false helpers.Hexadecimal = (None, Some ErrLength) /\
  NewDoubleClickPricer "zz" example_integrityKey false helpers.Hexadecimal
    1000000%float true [] = ((None, Some (InvalidByteError "z")), []) /\
  NewDoubleClickPricer example_encryptionKey "abc" false helpers.Hexadecimal
    1000000%float true [] = ((None, Some ErrLength), []).
Proof.
  split; [reflexivity|]. split; [reflexivity|]. split.
  - apply (NewDoubleClickPricer_key_error "zz" example_integrityKey false
             helpers.Hexadecimal 1000000%float true [] (InvalidByteError "z")) with (h := None).
    reflexivity.
  - destruct (NewDoubleClickPricer_key_error example_encryptionKey "abc" false
                helpers.Hexadecimal 1000000%float true [] ErrLength) as (_ & H).
    apply (H (hmac.New (fst (hex.DecodeString example_encryptionKey))) None).
    + vm_compute. reflexivity.
    + reflexivity.
Defined.

(** X6: a pricer is returned only when both keys are accepted; it holds the
    two key strings, the context of the encryption key and that of the
    integrity key in this order, the mode, the scale factor and the debug
    flag it was given.  In debug mode both key strings are then hexadecimal
    text, and five lines were appended to the sink, among them the two key
    strings and the bytes they decode to. *)
Theorem NewDoubleClickPricer_built
  (kE kI : string) (b : bool) (m : helpers.KeyDecodingMode) (sf : float64)
  (dbg : bool) (lines lines' : glog.Sink) (dc : DoubleClickPricer) (err : error) :
  NewDoubleClickPricer kE kI b m sf dbg lines = ((Some dc, err), lines') ->
  exists hE hI,
    helpers.CreateHmac kE b m = (Some hE, None) /\
    helpers.CreateHmac kI b m = (Some hI, None) /\
    err = None /\
    dc = mkPricer kE kI hE hI m sf dbg /\
    (dbg = false -> lines' = lines) /\
    (dbg = true ->
     exists bE bI,
       hex.DecodeString kE = (bE, None) /\ hex.DecodeString kI = (bI, None) /\
       lines' = lines ++
         [ [glog.Str "Keys decoding mode : "; glog.Mode m];
           [glog.Str "Encryption key : "; glog.Str kE];
           [glog.Str "Encryption key (bytes) : "; glog.Bytes bE];
           [glog.Str "Integrity key : "; glog.Str kI];
           [glog.Str "Integrity key (bytes) : "; glog.Bytes bI] ]).
Proof.
  unfold NewDoubleClickPricer.
  destruct (helpers.CreateHmac kE b m) as [[hE|] [e|]]; try discriminate.
  destruct (helpers.CreateHmac kI b m) as [[hI|] [e|]]; try discriminate.
  destruct dbg.
  - destruct (hex.DecodeString kE) as [bE [e|]]; try discriminate.
    destruct (hex.DecodeString kI) as [bI [e|]]; try discriminate.
    intros H. injection H as <- <- <-.
    exists hE, hI. repeat split; try discriminate.
    intros _. exists bE, bI. repeat split.
    unfold glog.Info. now rewrite <- !app_assoc.
  - intros H. injection H as <- <- <-.
    exists hE, hI. repeat split; discriminate.
Qed.

Lemma NewDoubleClickPricer_built_witness :
  NewDoubleClickPricer example_encryptionKey example_integrityKey false
    helpers.Hexadecimal 1000000%float true [] =
    ((Some (self example_debug_world), None), sink example_debug_world) /\
  In [glog.Str "Encryption key : "; glog.Str example_encryptionKey]
     (sink example_debug_world).
Proof.
  assert (E : NewDoubleClickPricer example_encryptionKey example_integrityKey false
    helpers.Hexadecimal 1000000%float true [] =
    ((Some (self example_debug_world), None), sink example_debug_world))
    by (vm_compute; reflexivity).
  split; [exact E|].
  destruct (NewDoubleClickPricer_built _ _ _ _ _ _ _ _ _ _ E)
    as (hE & hI & _ & _ & _ & _ & _ & L).
  destruct (L eq_refl) as (bE & bI & _ & _ & ->).
  cbn. tauto.
Defined.

(** ** The envelope of [Encrypt] *)

Lemma byte_xor_same_pad (p a b : byte) :
  byte_xor (byte_xor p a) (byte_xor p b) = byte_xor a b.
Proof.
  apply Z_of_byte_inj. rewrite !Z_of_byte_xor.
  rewrite (Z.lxor_comm (Z_of_byte p) (Z_of_byte a)), Z.lxor_assoc.
  rewrite <- (Z.lxor_assoc (Z_of_byte p)), Z.lxor_nilpotent, Z.lxor_0_l. reflexivity.
Qed.

Lemma xor_bytes_same_pad (p a b : list byte) :
  (List.length a <= List.length p)%nat -> (List.length b <= List.length p)%nat ->
  List.length a = List.length b ->
  xor_bytes (xor_bytes p a) (xor_bytes p b) = xor_bytes a b.
Proof.
  revert a b. induction p as [|x p IH]; intros [|y a] [|z b] Ha Hb Hab;
    cbn in *; try reflexivity; try lia.
  rewrite byte_xor_same_pad, IH by lia. reflexivity.
Qed.

(** The slice a token of [Encrypt] decodes to, and its three fields. *)
Lemma Encrypt_token_fields (dc : DoubleClickPricer) seed price dbg :
  let data := helpers.ApplyScaleFactor price (scaleFactor dc) dbg in
  let iv := md5.Sum (bytes_of_string seed) in
  let pad := firstn 8 (mac (encryptionKey dc) iv) in
  let d := mkSlice (envelope dc seed price dbg ++ zeros 2) 28 in
  base64.DecodeString (base64.EncodeToString (envelope dc seed price dbg)) = (d, None) /\
  reslice d 0 16 = Returns iv /\
  reslice d 16 24 = Returns (xor_bytes pad data) /\
  reslice d 24 28 = Returns (firstn 4 (mac (integrityKey dc) (data ++ iv))).
Proof.
  intros data iv pad d.
  destruct (token_28 _ (length_envelope dc seed price dbg)) as (_ & D).
  destruct (envelope_fields iv (xor_bytes pad data)
              (firstn 4 (mac (integrityKey dc) (data ++ iv))) (zeros 2))
    as (F1 & F2 & F3).
  { apply length_md5_Sum. }
  { rewrite length_xor_bytes. unfold pad, data.
    now rewrite length_firstn, length_mac, length_ApplyScaleFactor. }
  { now rewrite length_firstn, length_mac. }
  assert (C : cap d = 30%nat)
    by (unfold cap, d; cbn [backing]; now rewrite length_app, length_envelope).
  split; [exact D|].
  rewrite !reslice_ok by lia. cbn [Nat.sub]. rewrite skipn_O.
  unfold d. cbn [backing]. repeat split; f_equal; assumption.
Qed.

(** X7: the eight bytes that [Encrypt] places at offsets 16..23 of the
    envelope are the clear 8-byte array of the price masked, byte by byte,
    with the first eight bytes of the HMAC of the IV under the encryption key;
    masking them again with the same pad gives the clear bytes back. *)
Theorem Encrypt_masks_micros_with_pad
  (w : World) (seed : string) (price : float64) (dbg : bool) :
  let dc := self w in
  let data := helpers.ApplyScaleFactor price (scaleFactor dc) dbg in
  let iv := md5.Sum (bytes_of_string seed) in
  let pad := firstn 8 (mac (encryptionKey dc) iv) in
  exists token w' d,
    Encrypt seed price dbg w = Returns ((token, None), w') /\
    base64.DecodeString token = (d, None) /\
    reslice d 16 24 = Returns (xor_bytes pad data) /\
    List.length (xor_bytes pad data) = 8%nat /\
    xor_bytes pad (xor_bytes pad data) = data.
Proof.
  intros dc data iv pad.
  destruct (Encrypt_token_fields dc seed price dbg) as (D & _ & F & _).
  do 3 eexists. split; [apply Encrypt_run|]. split; [exact D|]. split; [exact F|].
  assert (L : List.length pad = 8%nat) by (unfold pad; now rewrite length_firstn, length_mac).
  assert (L' : List.length data = 8%nat) by apply length_ApplyScaleFactor.
  split; [rewrite length_xor_bytes; lia | apply xor_bytes_cancel; lia].
Qed.

(** X8: two tokens made with the same keys and the same seed have the same
    pad: the exclusive or of their masked-price fields is the exclusive or of
    the clear bytes of the two prices. *)
Theorem same_seed_tokens_leak_xor_of_micros
  (w w2 : World) (seed : string) (price1 price2 : float64) (dbg1 dbg2 : bool) :
  same_codec (self w) (self w2) ->
  exists t1 t2 w1' w2' d1 d2 m1 m2,
    Encrypt seed price1 dbg1 w = Returns ((t1, None), w1') /\
    Encrypt seed price2 dbg2 w2 = Returns ((t2, None), w2') /\
    base64.DecodeString t1 = (d1, None) /\ base64.DecodeString t2 = (d2, None) /\
    reslice d1 0 16 = reslice d2 0 16 /\
    reslice d1 16 24 = Returns m1 /\ reslice d2 16 24 = Returns m2 /\
    xor_bytes m1 m2 =
    xor_bytes (helpers.ApplyScaleFactor price1 (scaleFactor (self w)) dbg1)
              (helpers.ApplyScaleFactor price2 (scaleFactor (self w)) dbg2).
Proof.
  intros (He & Hi & Hs).
  destruct (Encrypt_token_fields (self w) seed price1 dbg1) as (D1 & I1 & F1 & _).
  destruct (Encrypt_token_fields (self w2) seed price2 dbg2) as (D2 & I2 & F2 & _).
  do 8 eexists.
  split; [apply Encrypt_run|]. split; [apply Encrypt_run|].
  split; [exact D1|]. split; [exact D2|].
  split; [now rewrite I1, I2|]. split; [exact F1|]. split; [exact F2|].
  unfold mac. rewrite <- He, <- Hs.
  apply xor_bytes_same_pad;
    rewrite ?length_firstn, ?length_hmac_Sum, !length_ApplyScaleFactor; cbn; lia.
Qed.

Lemma same_seed_tokens_leak_xor_of_micros_witness :
  same_codec (self example_world) (self example_debug_world) /\
  exists t1 t2 w1' w2' d1 d2 m1 m2,
    Encrypt "abc123" 2.5%float false example_world = Returns ((t1, None), w1') /\
    Encrypt "abc123" 53.66175%float true example_debug_world = Returns ((t2, None), w2') /\
    base64.DecodeString t1 = (d1, None) /\ base64.DecodeString t2 = (d2, None) /\
    reslice d1 0 16 = reslice d2 0 16 /\
    reslice d1 16 24 = Returns m1 /\ reslice d2 16 24 = Returns m2 /\
    xor_bytes m1 m2 =
    xor_bytes (helpers.ApplyScaleFactor 2.5%float (scaleFactor (self example_world)) false)
              (helpers.ApplyScaleFactor 53.66175%float (scaleFactor (self example_world)) true).
Proof.
  assert (S : same_codec (self example_world) (self example_debug_world))
    by (repeat split).
  split; [exact S|].
  exact (same_seed_tokens_leak_xor_of_micros example_world example_debug_world "abc123"
           2.5%float 53.66175%float false true S).
Defined.

Lemma app_inj_length {A} (a b c d : list A) :
  List.length a = List.length c -> a ++ b = c ++ d -> a = c /\ b = d.
Proof.
  revert c. induction a as [|x a IH]; intros [|y c] L H; cbn in *; try discriminate.
  - now split.
  - injection H as -> H. destruct (IH c) as (-> & ->); [lia|assumption|now split].
Qed.

Lemma EncodeToString_inj (l1 l2 : list byte) :
  base64.EncodeToString l1 = base64.EncodeToString l2 -> l1 = l2.
Proof.
  intros H.
  pose proof (Decode_EncodeToString l1 0 []) as D1.
  pose proof (Decode_EncodeToString l2 0 []) as D2.
  rewrite H in D1. rewrite D1 in D2. now injection D2.
Qed.

(** X9: with given keys and scale factor two calls of [Encrypt] return the
    same token only if the seeds have the same MD5 digest and the prices the
    same clear 8-byte array: distinct micros, or distinct IVs, give distinct
    tokens. *)
Theorem Encrypt_token_injective
  (w w2 : World) (seed1 seed2 : string) (price1 price2 : float64)
  (dbg1 dbg2 : bool) (token : string) :
  same_codec (self w) (self w2) ->
  result (Encrypt seed1 price1 dbg1 w) = Returns (token, None) ->
  result (Encrypt seed2 price2 dbg2 w2) = Returns (token, None) ->
  md5.Sum (bytes_of_string seed1) = md5.Sum (bytes_of_string seed2) /\
  helpers.ApplyScaleFactor price1 (scaleFactor (self w)) dbg1 =
  helpers.ApplyScaleFactor price2 (scaleFactor (self w2)) dbg2.
Proof.
  intros (He & Hi & Hs) H1 H2.
  rewrite Encrypt_run in H1, H2. cbn [result] in H1, H2.
  injection H1 as H1. injection H2 as H2. rewrite <- H2 in H1.
  apply EncodeToString_inj in H1. clear H2.
  unfold envelope in H1.
  set (data1 := helpers.ApplyScaleFactor price1 (scaleFactor (self w)) dbg1) in *.
  set (data2 := helpers.ApplyScaleFactor price2 (scaleFactor (self w2)) dbg2) in *.
  set (iv1 := md5.Sum (bytes_of_string seed1)) in *.
  set (iv2 := md5.Sum (bytes_of_string seed2)) in *.
  assert (L1 : List.length data1 = 8%nat) by apply length_ApplyScaleFactor.
  assert (L2 : List.length data2 = 8%nat) by apply length_ApplyScaleFactor.
  apply app_inj_length in H1; [|unfold iv1, iv2; now rewrite !length_md5_Sum].
  destruct H1 as (Hiv & H1).
  apply app_inj_length in H1;
    [|rewrite !length_xor_bytes, !length_firstn, !length_mac; lia].
  destruct H1 as (Henc & _).
  split; [exact Hiv|].
  unfold mac in Henc. rewrite <- He, <- Hiv in Henc.
  apply (f_equal (xor_bytes (firstn 8 (hmac.Sum
           (hmac.mkHash (hmac.keyBlock (encryptionKey (self w))) iv1) [])))) in Henc.
  rewrite !xor_bytes_cancel in Henc
    by (rewrite length_firstn, length_hmac_Sum; cbn; lia).
  exact Henc.
Qed.

Lemma Encrypt_token_injective_witness :
  same_codec (self example_world) (self example_debug_world) /\
  result (Encrypt "abc123" 2.5%float false example_world) = Returns (example_token, None) /\
  result (Encrypt "abc123" 2.5000001%float true example_debug_world) =
    Returns (example_token, None) /\
  helpers.ApplyScaleFactor 2.5%float (scaleFactor (self example_world)) false =
  helpers.ApplyScaleFactor 2.5000001%float (scaleFactor (self example_debug_world)) true.
Proof.
  assert (S : same_codec (self example_world) (self example_debug_world))
    by (repeat split).
  assert (E1 : result (Encrypt "abc123" 2.5%float false example_world) =
               Returns (example_token, None)) by (vm_compute; reflexivity).
  assert (E2 : result (Encrypt "abc123" 2.5000001%float true example_debug_world) =
               Returns (example_token, None)) by (vm_compute; reflexivity).
  split; [exact S|]. split; [exact E1|]. split; [exact E2|].
  exact (proj2 (Encrypt_token_injective _ _ _ _ _ _ _ _ _ S E1 E2)).
Defined.

(** ** The text of a token *)

(** X10: the encoding of [Encrypt] and the decoding of [Decrypt] are
    inverse on every byte string: the encoded text needs no padding repair,
    and it decodes without error to a slice whose elements are the bytes
    encoded. *)
Theorem token_text_round_trip (l : list byte) :
  helpers.AddBase64Padding (base64.EncodeToString l) = base64.EncodeToString l /\
  exists d,
    base64.DecodeString (base64.EncodeToString l) = (d, None) /\
    elems d = l /\ len d = List.length l.
Proof.
  split; [apply AddBase64Padding_EncodeToString|].
  eexists. split; [apply DecodeString_EncodeToString|].
  unfold elems. cbn [backing len].
  now rewrite firstn_app, Nat.sub_diag, firstn_O, app_nil_r, firstn_all.
Qed.

Lemma url_safe_encode (i : Z) : 0 <= i < 64 -> url_safe (base64.encode i) = true.
Proof.
  intros H.
  assert (E : forallb (fun n => url_safe (base64.encode (Z.of_nat n))) (seq 0 64) = true)
    by (vm_compute; reflexivity).
  rewrite forallb_forall in E.
  specialize (E (Z.to_nat i)). rewrite in_seq, Z2Nat.id in E by lia.
  apply E. lia.
Qed.

Lemma url_safe_EncodeToString (l : list byte) :
  forallb url_safe (chars (base64.EncodeToString l)) = true.
Proof.
  induction l as [|a|a b|a b c l IH] using list_ind3;
    cbn [base64.EncodeToString chars list_ascii_of_string forallb].
  - reflexivity.
  - rewrite !url_safe_encode by apply sextet_range. reflexivity.
  - rewrite !url_safe_encode by apply sextet_range. reflexivity.
  - rewrite !url_safe_encode by apply sextet_range. exact IH.
Qed.

(** X11: every character of a token of [Encrypt] is a letter, a digit, [-],
    [_] or the padding [=]: the token can go into a URL as it is. *)
Theorem Encrypt_token_is_url_safe
  (w : World) (seed : string) (price : float64) (dbg : bool) :
  exists token w',
    Encrypt seed price dbg w = Returns ((token, None), w') /\
    forallb url_safe (chars token) = true.
Proof.
  do 2 eexists. split; [apply Encrypt_run|apply url_safe_EncodeToString].
Qed.

(** ** Tokens that [Decrypt] refuses *)

Lemma skip_newlines_In (c : ascii) (src : string) (si : Z) :
  In c (chars src) -> base64.is_newline c = false ->
  In c (chars (fst (base64.skip_newlines src si))).
Proof.
  revert si. induction src as [|a rest IH]; intros si Hin Hc; cbn in *; [contradiction|].
  destruct (base64.is_newline a) eqn:Ha.
  - destruct Hin as [<-|Hin]; [congruence|]. now apply IH.
  - exact Hin.
Qed.

(** Every error of the decoder is a [CorruptInputError]. *)
Lemma Decode_error_kind (src : string) :
  forall si dbuf out e,
    snd (base64.Decode src si dbuf out) = Some e -> exists n, e = CorruptInputError n.
Proof.
  induction src as [|c rest IH]; intros si dbuf out e; cbn [base64.Decode].
  - destruct dbuf; cbn; [discriminate|]. intros [= <-]. eexists; reflexivity.
  - destruct (base64.decodeMap c) as [v|].
    + destruct (List.length (dbuf ++ [v]) =? 4)%nat; apply IH.
    + destruct (base64.is_newline c); [apply IH|].
      destruct (negb (c =? base64.padChar)%char);
        [cbn; intros [= <-]; eexists; reflexivity|].
      destruct (List.length dbuf) as [|[|[|[|n]]]];
        try (cbn; intros [= <-]; eexists; reflexivity).
      * destruct (base64.skip_newlines rest (si + 1)) as [tail sj].
        destruct tail as [|c2 rest2]; [cbn; intros [= <-]; eexists; reflexivity|].
        destruct (c2 =? base64.padChar)%char;
          [|cbn; intros [= <-]; eexists; reflexivity].
        destruct (base64.skip_newlines rest2 (sj + 1)) as [tail' sj'].
        destruct tail'; cbn; [discriminate|intros [= <-]; eexists; reflexivity].
      * destruct (base64.skip_newlines rest (si + 1)) as [tail sj].
        destruct tail; cbn; [discriminate|intros [= <-]; eexists; reflexivity].
Qed.

(** A character that is neither of the alphabet, nor a line break, nor the
    padding character makes the decoder fail, wherever it stands. *)
Lemma Decode_invalid_char (c : ascii) (src : string) :
  base64.decodeMap c = None -> base64.is_newline c = false -> c <> base64.padChar ->
  In c (chars src) ->
  forall si dbuf out, snd (base64.Decode src si dbuf out) <> None.
Proof.
  intros Hmap Hnl Hpad.
  induction src as [|a rest IH]; intros Hin si dbuf out; cbn in Hin; [contradiction|].
  cbn [base64.Decode].
  destruct (base64.decodeMap a) as [v|] eqn:Ea.
  - destruct Hin as [<-|Hin]; [congruence|].
    destruct (List.length (dbuf ++ [v]) =? 4)%nat; now apply IH.
  - destruct (base64.is_newline a) eqn:Na.
    + destruct Hin as [<-|Hin]; [congruence|]. now apply IH.
    + destruct (a =? base64.padChar)%char eqn:Pa; cbn [negb]; [|cbn; discriminate].
      apply Ascii.eqb_eq in Pa. subst a.
      destruct Hin as [<-|Hin]; [congruence|].
      destruct (List.length dbuf) as [|[|[|[|n]]]]; try (cbn; discriminate).
      * pose proof (skip_newlines_In c rest (si + 1) Hin Hnl) as T.
        destruct (base64.skip_newlines rest (si + 1)) as [tail sj]. cbn [fst] in T.
        destruct tail as [|c2 rest2]; [cbn; discriminate|].
        destruct (c2 =? base64.padChar)%char eqn:P2; [|cbn; discriminate].
        apply Ascii.eqb_eq in P2. subst c2.
        cbn in T. destruct T as [<-|T]; [congruence|].
        pose proof (skip_newlines_In c rest2 (sj + 1) T Hnl) as T'.
        destruct (base64.skip_newlines rest2 (sj + 1)) as [tail' sj']. cbn [fst] in T'.
        destruct tail'; [contradiction|cbn; discriminate].
      * pose proof (skip_newlines_In c rest (si + 1) Hin Hnl) as T.
        destruct (base64.skip_newlines rest (si + 1)) as [tail sj]. cbn [fst] in T.
        destruct tail; [contradiction|cbn; discriminate].
Qed.

Lemma chars_append (s t : string) : chars (s ++ t) = (chars s ++ chars t)%list.
Proof.
  induction s as [|a s IH]; cbn; [reflexivity|]. unfold chars in IH. now rewrite IH.
Qed.

Lemma In_AddBase64Padding (c : ascii) (s : string) :
  In c (chars s) -> In c (chars (helpers.AddBase64Padding s)).
Proof.
  intros H. unfold helpers.AddBase64Padding.
  destruct (String.length s mod 4)%nat; [exact H|].
  rewrite chars_append. apply in_or_app. now left.
Qed.

(** X12: a token that holds, anywhere, a character that is neither of the
    URL-safe alphabet, nor a line break, nor [=] is refused: [Decrypt] returns
    the zero price with a [CorruptInputError], computes no MAC and logs
    nothing, even in debug mode: the state is left as it was. *)
Theorem Decrypt_rejects_foreign_character
  (s : string) (c : ascii) (dbg : bool) (w : World) :
  In c (chars s) ->
  base64.decodeMap c = None -> base64.is_newline c = false -> c <> base64.padChar ->
  exists n, Decrypt s dbg w = Returns ((PrimFloat.zero, Some (CorruptInputError n)), w).
Proof.
  intros Hin Hmap Hnl Hpad.
  pose proof (Decode_invalid_char c (helpers.AddBase64Padding s) Hmap Hnl Hpad
                (In_AddBase64Padding c s Hin) 0 [] []) as E.
  destruct (base64.DecodeString (helpers.AddBase64Padding s)) as [d err] eqn:D.
  assert (Herr : err = snd (base64.Decode (helpers.AddBase64Padding s) 0 [] [])).
  { unfold base64.DecodeString in D.
    destruct (base64.Decode (helpers.AddBase64Padding s) 0 [] []) as [out er].
    now injection D as _ <-. }
  destruct err as [e|]; [|now rewrite <- Herr in E].
  destruct (Decode_error_kind _ _ _ _ e (eq_sym Herr)) as (n & ->).
  exists n. now apply (Decrypt_malformed s d).
Qed.

Lemma Decrypt_rejects_foreign_character_witness :
  In "+"%char (chars "6ZoYxCjLONXyYIU2eJIuAxe4RClDrNV39T34+g==") /\
  base64.decodeMap "+" = None /\ base64.is_newline "+" = false /\
  "+"%char <> base64.padChar /\
  exists n,
    Decrypt "6ZoYxCjLONXyYIU2eJIuAxe4RClDrNV39T34+g==" true example_world =
    Returns ((PrimFloat.zero, Some (CorruptInputError n)), example_world).
Proof.
  assert (I : In "+"%char (chars "6ZoYxCjLONXyYIU2eJIuAxe4RClDrNV39T34+g=="))
    by (cbn; tauto).
  assert (P : "+"%char <> base64.padChar) by discriminate.
  split; [exact I|]. split; [reflexivity|]. split; [reflexivity|]. split; [exact P|].
  exact (Decrypt_rejects_foreign_character _ "+" true example_world I eq_refl eq_refl P).
Defined.

(** X13: what [Decrypt] can return: an error always comes with the zero
    price, and it is either a [CorruptInputError] of the decoder or the error
    "Failed to decrypt"; the only panic is the one of a slice expression. *)
Theorem Decrypt_result_shape (s : string) (dbg : bool) (w : World) :
  (exists n, result (Decrypt s dbg w) = Returns (PrimFloat.zero, Some (CorruptInputError n))) \/
  result (Decrypt s dbg w) = Returns (PrimFloat.zero, errors.New "Failed to decrypt") \/
  (exists price, result (Decrypt s dbg w) = Returns (price, None)) \/
  result (Decrypt s dbg w) = Panics "runtime error: slice bounds out of range".
Proof.
  destruct (base64.DecodeString (helpers.AddBase64Padding s)) as [d [e|]] eqn:D.
  - left. rewrite (Decrypt_malformed s d e dbg w D). cbn [result].
    assert (Herr : snd (base64.Decode (helpers.AddBase64Padding s) 0 [] []) = Some e).
    { unfold base64.DecodeString in D.
      destruct (base64.Decode (helpers.AddBase64Padding s) 0 [] []) as [out er].
      now injection D as _ ->. }
    destruct (Decode_error_kind _ _ _ _ e Herr) as (n & ->). now exists n.
  - destruct (Nat.le_gt_cases 28 (cap d)) as [C|C].
    + rewrite (Decrypt_run s d dbg w D C). cbn [result]. unfold open_envelope.
      destruct (bytes_differ _ _); [right; left; reflexivity|].
      right; right; left. eexists. reflexivity.
    + right; right; right. now rewrite (Decrypt_short s d dbg w D C).
Qed.

(** ** Calls one after the other *)

(** X14: a call of [Decrypt] or of [Encrypt] is not influenced by the calls
    made before on the same pricer: after any [Encrypt] or [Decrypt] that
    returned, [Decrypt] gives for every token, and [Encrypt] for every seed
    and price, the result it gives on the state before, whatever the debug
    flags. *)
Theorem later_calls_ignore_earlier_calls (w : World) :
  (forall seed0 price0 dbg0 r0 w1,
     Encrypt seed0 price0 dbg0 w = Returns (r0, w1) ->
     forall s dbg dbg', result (Decrypt s dbg' w1) = result (Decrypt s dbg w)) /\
  (forall s0 dbg0 r0 w1,
     Decrypt s0 dbg0 w = Returns (r0, w1) ->
     (forall s dbg dbg', result (Decrypt s dbg' w1) = result (Decrypt s dbg w)) /\
     (forall seed price dbg dbg',
        result (Encrypt seed price dbg' w1) = result (Encrypt seed price dbg w))).
Proof.
  split.
  - intros seed0 price0 dbg0 r0 w1 H s dbg dbg'.
    rewrite Encrypt_run in H. injection H as _ <-.
    apply Decrypt_same_codec, same_configuration_same_codec.
    split; [|split; [|split; [|split; [|split; [|split]]]]]; reflexivity.
  - intros s0 dbg0 r0 w1 H.
    assert (S : same_codec (self w1) (self w)).
    { destruct (Decrypt_Returns_inv s0 dbg0 w r0 w1 H)
        as [(d & e & _ & _ & ->)|(d & _ & _ & _ & ->)]; repeat split. }
    split.
    + intros s dbg dbg'. now apply Decrypt_same_codec.
    + intros seed price dbg dbg'. rewrite !Encrypt_run. cbn [result].
      now rewrite (envelope_same_codec (self w1) (self w) seed price dbg' dbg S).
Qed.

Lemma later_calls_ignore_earlier_calls_witness :
  Encrypt "seed7" 53.66175%float true example_world =
    Returns (("LWPYDshyoWDhsC62jt8LIeJ5w7cKCbMS1tZyKg=="%string, None),
             after_Encrypt example_world "seed7" 53.66175%float true) /\
  result (Decrypt example_token false
            (after_Encrypt example_world "seed7" 53.66175%float true)) =
  result (Decrypt example_token true example_world).
Proof.
  assert (E : Encrypt "seed7" 53.66175%float true example_world =
    Returns (("LWPYDshyoWDhsC62jt8LIeJ5w7cKCbMS1tZyKg=="%string, None),
             after_Encrypt example_world "seed7" 53.66175%float true))
    by (vm_compute; reflexivity).
  split; [exact E|].
  exact (proj1 (later_calls_ignore_earlier_calls example_world) _ _ _ _ _ E
           example_token true false).
Defined.

(** ** Padding repair and short tokens *)

Lemma Decrypt_padded_alike (s s' : string) (dbg : bool) (w : World) :
  helpers.AddBase64Padding s = helpers.AddBase64Padding s' ->
  Decrypt s dbg w = Decrypt s' dbg w.
Proof. intros H. unfold Decrypt. now rewrite H. Qed.

Lemma AddBase64Padding_stripped (env : list byte) :
  List.length env = 28%nat ->
  helpers.AddBase64Padding (substring 0 38 (base64.EncodeToString env)) =
    base64.EncodeToString env /\
  helpers.AddBase64Padding (substring 0 39 (base64.EncodeToString env)) =
    base64.EncodeToString env.
Proof.
  intros H.
  do 29 (destruct env as [|? env]; try discriminate H).
  split; reflexivity.
Qed.

(** X15: [Decrypt] accepts a token of [Encrypt] whose padding was stripped:
    without its last [=], or without both, the token gives the result of the
    whole token. *)
Theorem Decrypt_accepts_stripped_padding
  (w : World) (seed : string) (price : float64) (dbg : bool) :
  exists token w',
    Encrypt seed price dbg w = Returns ((token, None), w') /\
    forall dbg' w2,
      Decrypt (substring 0 38 token) dbg' w2 = Decrypt token dbg' w2 /\
      Decrypt (substring 0 39 token) dbg' w2 = Decrypt token dbg' w2.
Proof.
  do 2 eexists. split; [apply Encrypt_run|].
  intros dbg' w2.
  destruct (AddBase64Padding_stripped _ (length_envelope (self w) seed price dbg))
    as (P2 & P1).
  split; apply Decrypt_padded_alike;
    now rewrite AddBase64Padding_EncodeToString.
Qed.

(** ** Which tokens make [Decrypt] panic *)

Lemma length_quantum_bytes (dbuf : list Z) :
  List.length (base64.quantum_bytes dbuf) = Nat.min (List.length dbuf - 1) 3.
Proof. unfold base64.quantum_bytes. now rewrite length_firstn. Qed.

Lemma length_skip_newlines (src : string) (si : Z) :
  (String.length (fst (base64.skip_newlines src si)) <= String.length src)%nat.
Proof.
  revert si. induction src as [|c rest IH]; intros si; cbn; [lia|].
  destruct (base64.is_newline c); cbn; [|lia].
  specialize (IH (si + 1)). lia.
Qed.

(** The decoder never gives more bytes than three for four characters. *)
Lemma Decode_length_bound (src : string) (si : Z) (dbuf : list Z) (out : list byte) :
  (List.length dbuf < 4)%nat ->
  (List.length (fst (base64.Decode src si dbuf out)) <=
   List.length out + (List.length dbuf + String.length src) / 4 * 3)%nat.
Proof.
  revert si dbuf out.
  induction src as [|c rest IH]; intros si dbuf out Hd.
  - cbn. destruct dbuf; cbn; lia.
  - cbn [base64.Decode String.length].
    destruct (base64.decodeMap c) as [v|].
    + rewrite length_app. cbn [List.length].
      destruct (Nat.eqb_spec (List.length dbuf + 1) 4) as [E|E].
      * specialize (IH (si + 1) [] (out ++ base64.quantum_bytes (dbuf ++ [v]))
                      ltac:(cbn; lia)).
        rewrite length_app, length_quantum_bytes, length_app in IH.
        cbn [List.length] in IH.
        replace (List.length dbuf + S (String.length rest))%nat
          with (String.length rest + 1 * 4)%nat by lia.
        rewrite Nat.div_add by lia. cbn [Nat.add] in IH. lia.
      * specialize (IH (si + 1) (dbuf ++ [v]) out
                      ltac:(rewrite length_app; cbn; lia)).
        rewrite length_app in IH. cbn [List.length] in IH.
        replace (List.length dbuf + S (String.length rest))%nat
          with (List.length dbuf + 1 + String.length rest)%nat by lia.
        exact IH.
    + destruct (base64.is_newline c).
      * specialize (IH (si + 1) dbuf out Hd).
        assert ((List.length dbuf + String.length rest) / 4 <=
                (List.length dbuf + S (String.length rest)) / 4)%nat
          by (apply Nat.Div0.div_le_mono; lia).
        lia.
      * destruct (negb (Ascii.eqb c base64.padChar)); [cbn; lia|].
        destruct dbuf as [|a [|b [|e [|f dbuf]]]]; cbn [List.length] in *;
          try (cbn; lia).
        -- pose proof (length_skip_newlines rest (si + 1)) as L.
           destruct (base64.skip_newlines rest (si + 1)) as [tail sj].
           cbn [fst] in L.
           destruct tail as [|c2 rest2]; [cbn; lia|].
           cbn [String.length] in L.
           assert (1 <= (2 + S (String.length rest)) / 4)%nat
             by (apply (Nat.div_le_lower_bound _ 4 1); lia).
           destruct (Ascii.eqb c2 base64.padChar); [|cbn; lia].
           destruct (base64.skip_newlines rest2 (sj + 1)) as [tail' sj'].
           destruct tail'; cbn [fst]; rewrite length_app, length_quantum_bytes;
             cbn [List.length Nat.sub Nat.min]; lia.
        -- assert (1 <= (3 + S (String.length rest)) / 4)%nat
             by (apply (Nat.div_le_lower_bound _ 4 1); lia).
           destruct (base64.skip_newlines rest (si + 1)) as [tail' sj'].
           destruct tail'; cbn [fst]; rewrite length_app, length_quantum_bytes;
             cbn [List.length Nat.sub Nat.min]; lia.
Qed.

(** The buffer of [DecodeString] has the capacity [DecodedLen] of the text. *)
Lemma cap_DecodeString (s : string) :
  cap (fst (base64.DecodeString s)) = base64.DecodedLen (String.length s).
Proof.
  unfold base64.DecodeString.
  pose proof (Decode_length_bound s 0 [] [] ltac:(cbn; lia)) as B.
  destruct (base64.Decode s 0 [] []) as [out err]. cbn [fst] in *.
  unfold cap. cbn [backing]. rewrite length_app.
  unfold zeros. rewrite repeat_length.
  unfold base64.DecodedLen. cbn [List.length Nat.add] in B. lia.
Qed.

(** X16: [Decrypt] panics exactly when the token, after the padding repair,
    decodes without error and has fewer than 40 characters: the decoding
    buffer then has fewer than 28 bytes and is sliced beyond its capacity.
    A token that does not decode is returned as an error, and a text of 40
    characters or more that decodes never panics. *)
Theorem Decrypt_panics_iff_short_token (s : string) (dbg : bool) (w : World) :
  let padded := helpers.AddBase64Padding s in
  (exists r, Decrypt s dbg w = Panics r) <->
  snd (base64.DecodeString padded) = None /\ (String.length padded < 40)%nat.
Proof.
  intros padded. subst padded.
  pose proof (cap_DecodeString (helpers.AddBase64Padding s)) as C.
  unfold base64.DecodedLen in C.
  pose proof (Nat.div_mod_eq (String.length (helpers.AddBase64Padding s)) 4) as Q.
  pose proof (Nat.mod_upper_bound (String.length (helpers.AddBase64Padding s)) 4
                ltac:(lia)) as M.
  destruct (base64.DecodeString (helpers.AddBase64Padding s)) as [d [e|]] eqn:D;
    cbn [fst snd] in *.
  - rewrite (Decrypt_malformed s d e dbg w D).
    split; [intros (r & H); discriminate H|intros (H & _); discriminate H].
  - destruct (Nat.le_gt_cases 28 (cap d)) as [G|G].
    + rewrite (Decrypt_run s d dbg w D G).
      split; [intros (r & H); discriminate H|intros (_ & H); lia].
    + rewrite (Decrypt_short s d dbg w D G).
      split; [intros _; split; [reflexivity|lia]|intros _; eexists; reflexivity].
Qed.

Lemma Decrypt_panics_iff_short_token_witness :
  (exists r, Decrypt "6ZoYxCjLONXyYIU2eJIuAxe4RClDrNV39T34" false example_world = Panics r) /\
  ~ (exists r, Decrypt example_token false example_world = Panics r).
Proof.
  split.
  - apply (proj2 (Decrypt_panics_iff_short_token
                    "6ZoYxCjLONXyYIU2eJIuAxe4RClDrNV39T34" false example_world)).
    split; [vm_compute; reflexivity|vm_compute; lia].
  - intros H.
    apply (proj1 (Decrypt_panics_iff_short_token example_token false example_world)) in H.
    destruct H as (_ & H). vm_compute in H. lia.
Defined.

(** ** Tokens that differ and decode alike *)

Lemma Decrypt_decoded_alike (s s' : string) (dbg : bool) (w : World) :
  base64.DecodeString (helpers.AddBase64Padding s) =
  base64.DecodeString (helpers.AddBase64Padding s') ->
  result (Decrypt s dbg w) = result (Decrypt s' dbg w).
Proof.
  intros H.
  destruct (base64.DecodeString (helpers.AddBase64Padding s')) as [d [e|]] eqn:D.
  - now rewrite (Decrypt_malformed s d e dbg w H), (Decrypt_malformed s' d e dbg w D).
  - destruct (Nat.le_gt_cases 28 (cap d)) as [G|G].
    + now rewrite (Decrypt_run s d dbg w H G), (Decrypt_run s' d dbg w D G).
    + now rewrite (Decrypt_short s d dbg w H G), (Decrypt_short s' d dbg w D G).
Qed.

Lemma decodeMap_range (c : ascii) (v : Z) :
  base64.decodeMap c = Some v -> 0 <= v < 64.
Proof.
  unfold base64.decodeMap.
  repeat match goal with
         | |- context [if ?b then _ else _] => destruct b eqn:?
         end; intros [= <-]; lia.
Qed.

(** The byte of a last quantum of two sextets does not depend on the four
    low bits of the second sextet. *)
Lemma quantum_bytes_1_low_bits (a : byte) (v : Z) :
  let val := Z.shiftl (Z_of_byte a) 16 in
  0 <= v < 64 ->
  v / 16 = Z.land (Z.shiftr val 12) 0x3F / 16 ->
  base64.quantum_bytes [Z.land (Z.shiftr val 18) 0x3F; v] = [a].
Proof.
  intros val Hv H. unfold base64.quantum_bytes. cbn [nth List.length Nat.sub firstn].
  f_equal. apply Z_of_byte_inj. rewrite Z_of_byte_of_Z.
  change 16 with (2 ^ 4) in H. rewrite <- !Z.shiftr_div_pow2 in H by lia.
  rewrite !Z.shiftr_lor.
  rewrite (Z.shiftr_shiftl_r v 12 16) by lia. change (16 - 12) with 4.
  rewrite H. subst val.
  pose proof (Z_of_byte_range a) as Ha. generalize dependent (Z_of_byte a). intros A _ Ha.
  rewrite <- (Z.mod_small A (2 ^ 8)) by lia. rewrite <- !Z.land_ones by lia.
  change 256 with (2 ^ 8). rewrite <- !Z.land_ones by lia. change 0x3F with (Z.ones 6).
  Z.bitblast; do 4 Z.bitblast_core;
    repeat match goal with
           | |- context [Z.testbit ?x ?i] => rewrite (Z.testbit_neg_r x i) by lia
           end; btauto.
Qed.

(** The text of whole groups of three bytes decodes to them, whatever
    follows. *)
Lemma Decode_EncodeToString_app (pre : list byte) (tail : string) :
  (List.length pre mod 3 = 0)%nat ->
  forall si out, exists si',
    base64.Decode (base64.EncodeToString pre ++ tail) si [] out =
    base64.Decode tail si' [] (out ++ pre).
Proof.
  induction pre as [|a|a b|a b c l IH] using list_ind3; intros H si out.
  - exists si. cbn. now rewrite app_nil_r.
  - discriminate H.
  - discriminate H.
  - assert (Hl : (List.length l mod 3 = 0)%nat).
    { cbn [List.length] in H.
      replace (S (S (S (List.length l)))) with (List.length l + 1 * 3)%nat in H by lia.
      now rewrite Nat.Div0.mod_add in H. }
    cbn [base64.EncodeToString String.append].
    rewrite !(Decode_sextet _ _ _ _ _ _ (decodeMap_encode _ (sextet_range _))).
    cbn [List.length app Nat.eqb].
    destruct (IH Hl (si + 1 + 1 + 1 + 1)
                (out ++ base64.quantum_bytes
                   [Z.land (Z.shiftr (group3 a b c) 18) 0x3F;
                    Z.land (Z.shiftr (group3 a b c) 12) 0x3F;
                    Z.land (Z.shiftr (group3 a b c) 6) 0x3F;
                    Z.land (group3 a b c) 0x3F])) as (si' & E).
    exists si'. fold (group3 a b c). rewrite E, quantum_bytes_3.
    now rewrite <- app_assoc.
Qed.

Lemma envelope_text_split (env : list byte) (c : ascii) :
  List.length env = 28%nat ->
  exists pre b,
    env = (pre ++ [b])%list /\
    List.length pre = 27%nat /\
    get 37 (base64.EncodeToString env) =
      Some (base64.encode (Z.land (Z.shiftr (Z.shiftl (Z_of_byte b) 16) 12) 0x3F)) /\
    replace_last_char (base64.EncodeToString env) c =
      (base64.EncodeToString pre ++
       String (base64.encode (Z.land (Z.shiftr (Z.shiftl (Z_of_byte b) 16) 18) 0x3F))
         (String c "=="))%string /\
    String.length (replace_last_char (base64.EncodeToString env) c) = 40%nat.
Proof.
  intros H.
  do 29 (destruct env as [|? env]; try discriminate H).
  eexists [_;_;_;_;_;_;_;_;_;_;_;_;_;_;_;_;_;_;_;_;_;_;_;_;_;_;_], _.
  repeat split.
Qed.

Lemma DecodeString_replace_last_char (env : list byte) (c c0 : ascii) (v v0 : Z) :
  List.length env = 28%nat ->
  get 37 (base64.EncodeToString env) = Some c0 ->
  base64.decodeMap c0 = Some v0 ->
  base64.decodeMap c = Some v ->
  v / 16 = v0 / 16 ->
  base64.DecodeString (replace_last_char (base64.EncodeToString env) c) =
  base64.DecodeString (base64.EncodeToString env).
Proof.
  intros L G D0 D V.
  destruct (envelope_text_split env c L) as (pre & b & -> & Lp & G' & R & L40).
  assert (E0 : c0 = base64.encode (Z.land (Z.shiftr (Z.shiftl (Z_of_byte b) 16) 12) 0x3F))
    by congruence.
  subst c0. clear G G'.
  rewrite decodeMap_encode in D0 by apply sextet_range.
  assert (E0 : v0 = Z.land (Z.shiftr (Z.shiftl (Z_of_byte b) 16) 12) 0x3F) by congruence.
  subst v0. clear D0.
  rewrite DecodeString_EncodeToString, length_EncodeToString.
  unfold base64.DecodeString. rewrite L40, R.
  destruct (Decode_EncodeToString_app pre
              (String (base64.encode (Z.land (Z.shiftr (Z.shiftl (Z_of_byte b) 16) 18) 0x3F))
                 (String c "==")) ltac:(now rewrite Lp) 0 []) as (si' & ->).
  rewrite (Decode_sextet _ _ _ _ _ _ (decodeMap_encode _ (sextet_range _))).
  cbn [List.length app Nat.eqb]. rewrite (Decode_sextet _ _ _ _ _ _ D).
  cbn [List.length app Nat.eqb].
  rewrite Decode_pad2.
  rewrite (quantum_bytes_1_low_bits b v (decodeMap_range c v D) V).
  rewrite length_app, Lp. reflexivity.
Qed.

(** X17: a token of [Encrypt] is not the only text of its envelope.  The
    last character before the padding carries two bits of the envelope; the
    decoder ignores its four low bits, so a token whose last character is
    replaced by one of the alphabet with the same two high bits gives the
    result of the token itself: sixteen texts are accepted for each
    envelope. *)
Theorem Decrypt_ignores_low_bits_of_last_character
  (w : World) (seed : string) (price : float64) (dbg : bool)
  (c c0 : ascii) (v v0 : Z) :
  base64.decodeMap c = Some v ->
  base64.decodeMap c0 = Some v0 ->
  v / 16 = v0 / 16 ->
  exists token w',
    Encrypt seed price dbg w = Returns ((token, None), w') /\
    (get 37 token = Some c0 ->
     forall dbg' w2,
       result (Decrypt (replace_last_char token c) dbg' w2) =
       result (Decrypt token dbg' w2)).
Proof.
  intros D D0 V.
  do 2 eexists. split; [apply Encrypt_run|].
  intros G dbg' w2.
  pose proof (length_envelope (self w) seed price dbg) as L.
  apply Decrypt_decoded_alike.
  rewrite AddBase64Padding_EncodeToString.
  assert (P : helpers.AddBase64Padding
                (replace_last_char (base64.EncodeToString (envelope (self w) seed price dbg)) c) =
              replace_last_char (base64.EncodeToString (envelope (self w) seed price dbg)) c).
  { destruct (envelope_text_split _ c L) as (_ & _ & _ & _ & _ & _ & L40).
    unfold helpers.AddBase64Padding. now rewrite L40. }
  rewrite P.
  now apply (DecodeString_replace_last_char _ c c0 v v0).
Qed.

Lemma Decrypt_ignores_low_bits_of_last_character_witness :
  base64.decodeMap "h" = Some 33 /\
  base64.decodeMap "g" = Some 32 /\
  33 / 16 = 32 / 16 /\
  result (Encrypt "abc123" 2.5%float false example_world) =
    Returns (example_token, None) /\
  get 37 example_token = Some "g"%char /\
  replace_last_char example_token "h" = "6ZoYxCjLONXyYIU2eJIuAxe4RClDrNV39T34kh=="%string /\
  result (Decrypt "6ZoYxCjLONXyYIU2eJIuAxe4RClDrNV39T34kh==" false example_world) =
  result (Decrypt example_token false example_world).
Proof.
  assert (D : base64.decodeMap "h" = Some 33) by reflexivity.
  assert (D0 : base64.decodeMap "g" = Some 32) by reflexivity.
  assert (V : 33 / 16 = 32 / 16) by reflexivity.
  assert (E : result (Encrypt "abc123" 2.5%float false example_world) =
              Returns (example_token, None))
    by (vm_compute; reflexivity).
  split; [exact D|]. split; [exact D0|]. split; [exact V|].
  split; [exact E|]. split; [reflexivity|]. split; [reflexivity|].
  destruct (Decrypt_ignores_low_bits_of_last_character
              example_world "abc123" 2.5%float false "h" "g" 33 32 D D0 V)
    as (token & w' & E' & H).
  rewrite E' in E. cbn [result] in E.
  assert (T : token = example_token) by congruence.
  subst token.
  exact (H eq_refl false example_world).
Defined.
